(** * image-predictor: the agent of [src/agent.py], embedded and verified

    The development follows the source file top-down:
    - [PyFloat]: Python's [float] (IEEE 754 binary64), the conversions
      [float(bool)], [float(int)] and the two-argument [max];
    - [json]: the values [requests.Response.json()] can return;
    - [Pathlib]: the part of [pathlib.PurePosixPath] the agent uses;
    - [is_image_file], [extract_max_confidence]: the two pure functions;
    - [World] and the monad [M]: the file system, the remote endpoint and the
      log, threaded through [send_image], [handle_image], [on_created] and
      [scan_existing_and_process]. *)

From Stdlib Require Import ZArith Floats.SpecFloat Ascii String.
From stdpp Require Import gmap strings list sorting lexico.

Set Warnings "-register-all".
Local Open Scope string_scope.
Local Open Scope list_scope.

(** A path is the tuple of its components, as [PurePosixPath.parts]. *)
Abbreviation Path := (list string).

(** ** Exceptions and results *)

(** The exceptions the agent can meet.  All of them derive from Python's
    [Exception], so [except Exception] and tenacity's default retry predicate
    see every one of them. *)
Inductive exn :=
  | OverflowError                      (* float(int): int too large *)
  | TypeError                          (* float() of a non-number *)
  | FileNotFoundError (p : Path)
  | FileExistsError (p : Path)
  | NotADirectoryError (p : Path)
  | IsADirectoryError (p : Path)
  | PermissionError (p : Path)
  | RequestException                   (* network, status, body not JSON *)
  | RetryError.                        (* tenacity: attempts exhausted *)

Inductive result (A : Type) :=
  | Ok (a : A)
  | Raise (e : exn).
Arguments Ok {A} a.
Arguments Raise {A} e.

Global Instance result_ret : MRet result := λ A a, Ok a.
Global Instance result_bind : MBind result := λ A B f r,
  match r with Ok a => f a | Raise e => Raise e end.

(** ** Python floats *)

Module PyFloat.

Abbreviation float := spec_float.

Definition prec : Z := 53.
Definition emax : Z := 1024.

(** [0.0] and [1.0]. *)
Definition zero : float := S754_zero false.
Definition one : float := S754_finite false 4503599627370496 (-52).

(** [float(b)] for a [bool]. *)
Definition of_bool (b : bool) : float := if b then one else zero.

(** [float(n)] for an [int]: the nearest double, ties to even;
    [OverflowError] when that is beyond the largest finite double. *)
Definition of_int (n : Z) : result float :=
  match binary_normalize prec emax n 0 false with
  | S754_infinity _ => Raise OverflowError
  | f => Ok f
  end.

(** [a < b] on floats; false as soon as one side is NaN. *)
Definition lt (a b : float) : bool := SFltb a b.
Definition le (a b : float) : bool := SFleb a b.
Definition eqb (a b : float) : bool := SFeqb a b.

(** The builtin [max(a, b)]: it keeps [a] unless [b > a]. *)
Definition max (a b : float) : float := if lt a b then b else a.

(** The sign of a float, as [math.copysign(1, a) < 0]. *)
Definition negative (a : float) : bool := lt a zero.

End PyFloat.

Abbreviation float := PyFloat.float.

(** ** JSON values *)

(** What [json.loads] builds: [None], [bool], [int], [float], [str], [list]
    and [dict] with string keys. *)
Inductive json :=
  | JNull
  | JBool (b : bool)
  | JInt (n : Z)
  | JFloat (f : float)
  | JStr (s : string)
  | JList (l : list json)
  | JDict (m : gmap string json).

(** [isinstance(v, (int, float))]; [bool] is a subclass of [int]. *)
Definition is_number (v : json) : bool :=
  match v with
  | JBool _ | JInt _ | JFloat _ => true
  | _ => false
  end.

(** [float(v)]. *)
Definition py_float (v : json) : result float :=
  match v with
  | JBool b => Ok (PyFloat.of_bool b)
  | JInt n => PyFloat.of_int n
  | JFloat f => Ok f
  | _ => Raise TypeError
  end.

(** [key in d and isinstance(d[key], (int, float))], with the value. *)
Definition dict_number (d : gmap string json) (key : string) : option json :=
  match d !! key with
  | Some v => if is_number v then Some v else None
  | None => None
  end.

(** [key in d and isinstance(d[key], list)], with the list. *)
Definition dict_list (d : gmap string json) (key : string) : option (list json) :=
  match d !! key with
  | Some (JList l) => Some l
  | _ => None
  end.

(** ** extract_max_confidence (agent.py, lines 30-49) *)

Definition conf_keys : list string := ["confidence"; "score"; "probability"].

(** The inner loop [for key in ("confidence", "score", "probability")]. *)
Fixpoint for_keys (d : gmap string json) (keys : list string)
    (max_conf : float) : result float :=
  match keys with
  | [] => Ok max_conf
  | key :: keys =>
      match dict_number d key with
      | Some v => x ← py_float v; for_keys d keys (PyFloat.max max_conf x)
      | None => for_keys d keys max_conf
      end
  end.

(** The outer loop [for d in resp_json["detections"]] (and the same loop over
    ["predictions"]). *)
Fixpoint for_elems (l : list json) (max_conf : float) : result float :=
  match l with
  | [] => Ok max_conf
  | d :: l =>
      match d with
      | JDict m => mc ← for_keys m conf_keys max_conf; for_elems l mc
      | _ => for_elems l max_conf
      end
  end.

Definition extract_max_confidence (resp_json : json) : result float :=
  let max_conf := PyFloat.zero in
  match resp_json with
  | JDict m =>
      match dict_list m "detections" with
      | Some l => for_elems l max_conf
      | None =>
          match dict_number m "confidence" with
          | Some v => py_float v
          | None =>
              match dict_list m "predictions" with
              | Some l => for_elems l max_conf
              | None => Ok max_conf
              end
          end
      end
  | _ => Ok PyFloat.zero
  end.

(** ** pathlib *)

Module Pathlib.

(** [s[i:]] and [s[:i]]. *)
Fixpoint str_drop (i : nat) (s : string) : string :=
  match i, s with
  | O, _ => s
  | S i, String _ s => str_drop i s
  | S _, EmptyString => EmptyString
  end.

Fixpoint str_take (i : nat) (s : string) : string :=
  match i, s with
  | O, _ => EmptyString
  | S i, String c s => String c (str_take i s)
  | S _, EmptyString => EmptyString
  end.

(** [s.rfind('.')]; [None] stands for Python's [-1]. *)
Fixpoint rfind_dot (s : string) : option nat :=
  match s with
  | EmptyString => None
  | String c s =>
      match rfind_dot s with
      | Some i => Some (S i)
      | None => if Ascii.eqb c "." then Some O else None
      end
  end.

(** [c.lower()] on one byte.  Paths are held as UTF-8 bytes; on the bytes of a
    non-ASCII character [str.lower] never produces one of the strings of
    [image_suffixes], and this function leaves them as they are. *)
Definition lower_ascii (c : ascii) : ascii :=
  let n := nat_of_ascii c in
  if (65 <=? n)%nat && (n <=? 90)%nat then ascii_of_nat (n + 32) else c.

Fixpoint lower (s : string) : string :=
  match s with
  | EmptyString => EmptyString
  | String c s => String (lower_ascii c) (lower s)
  end.

(** [PurePath.name]: the final component, empty for the root alone. *)
Definition name (p : Path) : string :=
  if decide (p = ["/"]) then "" else default "" (last p).

(** The guard [0 < i < len(name) - 1] of [suffix] and [stem]. *)
Definition splits_at (nm : string) (i : nat) : bool :=
  (0 <? i)%nat && (i <? String.length nm - 1)%nat.

(** [PurePath.suffix], as CPython 3.11 defines it: the part of the name from
    its last dot on, when that dot is neither the first nor the last
    character. *)
Definition suffix (p : Path) : string :=
  let nm := name p in
  match rfind_dot nm with
  | Some i => if splits_at nm i then str_drop i nm else ""
  | None => ""
  end.

(** [PurePath.stem]: the name without its suffix. *)
Definition stem (p : Path) : string :=
  let nm := name p in
  match rfind_dot nm with
  | Some i => if splits_at nm i then str_take i nm else nm
  | None => nm
  end.

(** [PurePath.parent] *)
Definition parent (p : Path) : Path :=
  if decide (p = ["/"]) then p else take (length p - 1) p.

(** [p / s] for a single component [s]. *)
Definition joinpath (p : Path) (s : string) : Path := p ++ [s].

(** [str(p)] *)
Definition join_parts (l : list string) : string := String.concat "/" l.

Definition path_str (p : Path) : string :=
  match p with
  | [] => "."
  | "/" :: l => "/" +:+ join_parts l
  | _ => join_parts p
  end.

(** [PurePath.__lt__] compares the tuples of components, and [str.__lt__]
    compares code points, which on UTF-8 is the order of the bytes. *)
Global Instance ascii_lexico : Lexico ascii := λ a b,
  lexico (N_of_ascii a) (N_of_ascii b).

Global Instance string_lexico : Lexico string := λ s t,
  lexico (list_ascii_of_string s) (list_ascii_of_string t).

Global Instance ascii_lexico_po : StrictOrder (@lexico ascii _).
Proof.
  unfold lexico, ascii_lexico. split.
  - intros a. apply (irreflexivity lexico (N_of_ascii a)).
  - intros a b c. apply (transitivity (R:=lexico) (y:=N_of_ascii b)).
Qed.

Global Instance ascii_lexico_trichotomy : TrichotomyT (@lexico ascii _).
Proof.
  intros a b.
  destruct (trichotomyT lexico (N_of_ascii a) (N_of_ascii b)) as [[Hlt|Heq]|Hgt].
  - left; left; exact Hlt.
  - left; right.
    rewrite <- (ascii_N_embedding a), <- (ascii_N_embedding b), Heq; reflexivity.
  - right; exact Hgt.
Defined.

Global Instance string_lexico_po : StrictOrder (@lexico string _).
Proof.
  unfold lexico at 1, string_lexico. split.
  - intros s. apply (irreflexivity lexico (list_ascii_of_string s)).
  - intros s t u.
    apply (transitivity (R:=lexico) (y:=list_ascii_of_string t)).
Qed.

Global Instance string_lexico_trichotomy : TrichotomyT (@lexico string _).
Proof.
  intros s t.
  destruct (trichotomyT lexico (list_ascii_of_string s) (list_ascii_of_string t))
    as [[Hlt|Heq]|Hgt].
  - left; left; exact Hlt.
  - left; right.
    rewrite <- (string_of_list_ascii_of_string s),
      <- (string_of_list_ascii_of_string t), Heq; reflexivity.
  - right; exact Hgt.
Defined.

Definition path_lt : relation Path := lexico.

(** [not (q < p)], the order [sorted] puts its output in. *)
Definition path_le (p q : Path) : Prop := p = q ∨ path_lt p q.

Global Instance path_lt_dec (p q : Path) : Decision (path_lt p q) :=
  trichotomyT_dec p q.

Global Instance path_le_dec (p q : Path) : Decision (path_le p q) :=
  or_dec (decide (p = q)) (decide (path_lt p q)).

(** [sorted(l)] for a list of paths. *)
Definition sorted (l : list Path) : list Path := merge_sort path_le l.

End Pathlib.

(** ** is_image_file (agent.py, lines 17-18) *)

Definition image_suffixes : gset string :=
  {[ ".jpg"; ".jpeg"; ".png"; ".bmp"; ".gif" ]}.

Definition is_image_file (path : Path) : bool :=
  bool_decide (Pathlib.lower (Pathlib.suffix path) ∈ image_suffixes).

(** ** The world: file system, endpoint, log *)

(** What a file holds: bytes the agent never looks into (an image), or the
    JSON value that [json.dump(..., indent=2)] serialised into it. *)
Inductive content :=
  | Bytes
  | Document (j : json).

Inductive node :=
  | NFile (c : content)
  | NDir.

(** The records [logging] emits. *)
Inductive log_record :=
  | LogProcessing (p : Path)
  | LogFailedToSend (p : Path) (e : exn)
  | LogMaxConfidence (name : string) (max_conf : float)
  | LogSavedLowConfidence (p : Path).

(** - [fs]: the entries of the file system;
    - [denied p]: the system refuses to create, or to open for writing, [p]
      (permissions, read-only or full device);
    - [endpoint k url p]: what the [k]-th run of the body of [send_image]
      gets when it posts file [p] to [url]: the parsed JSON body, or [None]
      for a network failure, a non-2xx status or a body that is not JSON;
    - [attempts]: how many times the body of [send_image] has run;
    - [log]: the records logged so far, oldest first. *)
Record World := mkWorld {
  fs : gmap Path node;
  denied : Path → bool;
  endpoint : nat → string → Path → option json;
  attempts : nat;
  log : list log_record;
}.

Definition set_fs (f : gmap Path node → gmap Path node) (w : World) : World :=
  mkWorld (f (fs w)) (denied w) (endpoint w) (attempts w) (log w).

Definition count_attempt (w : World) : World :=
  mkWorld (fs w) (denied w) (endpoint w) (S (attempts w)) (log w).

Definition add_log (r : log_record) (w : World) : World :=
  mkWorld (fs w) (denied w) (endpoint w) (attempts w) (log w ++ [r]).

(** The current directory and the root always exist. *)
Definition node_at (f : gmap Path node) (p : Path) : option node :=
  if decide (p = [] ∨ p = ["/"]) then Some NDir else f !! p.

(** ** The monad of the agent: state and exceptions *)

Definition M (A : Type) : Type := World → result A * World.

Global Instance M_ret : MRet M := λ A a w, (Ok a, w).
Global Instance M_bind : MBind M := λ A B f m w,
  match m w with
  | (Ok a, w') => f a w'
  | (Raise e, w') => (Raise e, w')
  end.

Definition raise {A} (e : exn) : M A := λ w, (Raise e, w).

(** [try: r = m  except Exception as e: ...]: the outcome as a value. *)
Definition try_except {A} (m : M A) : M (result A) := λ w,
  let '(r, w') := m w in (Ok r, w').

(** A pure computation that may raise. *)
Definition lift {A} (r : result A) : M A := λ w, (r, w).

(** [for x in l: body(x)] *)
Fixpoint for_each {A} (l : list A) (body : A → M unit) : M unit :=
  match l with
  | [] => mret tt
  | x :: l => body x;; for_each l body
  end.

Definition logging (r : log_record) : M unit := λ w, (Ok tt, add_log r w).

(** *** File-system primitives *)

(** [p.exists()], [p.is_file()] *)
Definition path_exists (p : Path) : M bool := λ w,
  (Ok (bool_decide (is_Some (node_at (fs w) p))), w).

Definition is_file_in (f : gmap Path node) (p : Path) : bool :=
  match node_at f p with
  | Some (NFile _) => true
  | _ => false
  end.

Definition path_is_file (p : Path) : M bool := λ w, (Ok (is_file_in (fs w) p), w).

(** The entries directly inside [d]. *)
Definition is_child (d p : Path) : Prop :=
  p ≠ [] ∧ p ≠ ["/"] ∧ Pathlib.parent p = d.

Global Instance is_child_dec d p : Decision (is_child d p).
Proof. unfold is_child. apply _. Defined.

Definition children (f : gmap Path node) (d : Path) : list Path :=
  filter (is_child d) (elements (dom f)).

(** [d.iterdir()], consumed at once (by [sorted]). *)
Definition iterdir (d : Path) : M (list Path) := λ w,
  match node_at (fs w) d with
  | Some NDir => (Ok (children (fs w) d), w)
  | Some (NFile _) => (Raise (NotADirectoryError d), w)
  | None => (Raise (FileNotFoundError d), w)
  end.

(** The non-empty prefixes of [d], shortest first: its ancestors and itself. *)
Definition prefixes (d : Path) : list Path :=
  (λ n, take n d) <$> seq 1 (length d).

(** One level of [mkdir(parents=True, exist_ok=True)] on the way to [d]. *)
Definition mkdir_level (d q : Path) : M unit := λ w,
  match node_at (fs w) q with
  | Some NDir => (Ok tt, w)
  | Some (NFile _) =>
      (Raise (if decide (q = d) then FileExistsError d else NotADirectoryError d), w)
  | None =>
      if denied w q then (Raise (PermissionError q), w)
      else (Ok tt, set_fs <[q := NDir]> w)
  end.

(** [d.mkdir(parents=True, exist_ok=True)]: the missing ancestors are made
    from the top down, then [d]; an existing directory is left alone and an
    existing file in the way is an error. *)
Definition mkdir_parents (d : Path) : M unit := for_each (prefixes d) (mkdir_level d).

(** [with p.open("w") as f: json.dump(j, f, indent=2)] *)
Definition write_json (p : Path) (j : json) : M unit := λ w,
  match node_at (fs w) p with
  | Some NDir => (Raise (IsADirectoryError p), w)
  | Some (NFile _) =>
      if denied w p then (Raise (PermissionError p), w)
      else (Ok tt, set_fs <[p := NFile (Document j)]> w)
  | None =>
      match node_at (fs w) (Pathlib.parent p) with
      | Some NDir =>
          if denied w p then (Raise (PermissionError p), w)
          else (Ok tt, set_fs <[p := NFile (Document j)]> w)
      | Some (NFile _) => (Raise (NotADirectoryError p), w)
      | None => (Raise (FileNotFoundError p), w)
      end
  end.

(** ** send_image (agent.py, lines 21-27) *)

(** The body of [send_image], one attempt: open the file, post it, check the
    status, parse the body. *)
Definition send_image_body (api_url : string) (image_path : Path) : M json := λ w,
  let w' := count_attempt w in
  match node_at (fs w) image_path with
  | Some (NFile _) =>
      match endpoint w (attempts w) api_url image_path with
      | Some j => (Ok j, w')
      | None => (Raise RequestException, w')
      end
  | Some NDir => (Raise (IsADirectoryError image_path), w')
  | None => (Raise (FileNotFoundError image_path), w')
  end.

(** tenacity's [@retry(stop=stop_after_attempt(n), wait=...)]: the body runs
    again after every exception until the [n]-th attempt has failed, then
    [RetryError] is raised.  The waits between attempts take time and change
    nothing else; they are not part of the state. *)
Fixpoint retry (n : nat) {A} (body : M A) : M A :=
  match n with
  | O => raise RetryError
  | S n =>
      r ← try_except body;
      match r with
      | Ok a => mret a
      | Raise _ => retry n body
      end
  end.

Definition stop_after_attempt : nat := 3.

Definition send_image (api_url : string) (image_path : Path) : M json :=
  retry stop_after_attempt (send_image_body api_url image_path).

(** ** handle_image (agent.py, lines 52-73) *)

(** [{"image": str(image_path), "response": resp}] *)
Definition result_record (image_path : Path) (resp : json) : json :=
  JDict (<["image" := JStr (Pathlib.path_str image_path)]> {["response" := resp]}).

(** [{"image": ..., "response": resp, "max_confidence": max_conf}] *)
Definition review_record (image_path : Path) (resp : json) (max_conf : float) : json :=
  JDict (<["image" := JStr (Pathlib.path_str image_path)]>
         (<["response" := resp]> {["max_confidence" := JFloat max_conf]})).

(** [dir / (image_path.stem + ".json")] *)
Definition json_path (dir image_path : Path) : Path :=
  Pathlib.joinpath dir (Pathlib.stem image_path +:+ ".json").

Definition handle_image (api_url : string) (image_path : Path) (threshold : float)
    (review_dir results_dir : Path) : M unit :=
  logging (LogProcessing image_path);;
  r ← try_except (send_image api_url image_path);
  match r with
  | Raise e => logging (LogFailedToSend image_path e)
  | Ok resp =>
      mkdir_parents results_dir;;
      let out_path := json_path results_dir image_path in
      write_json out_path (result_record image_path resp);;
      max_conf ← lift (extract_max_confidence resp);
      logging (LogMaxConfidence (Pathlib.name image_path) max_conf);;
      if PyFloat.lt max_conf threshold then
        mkdir_parents review_dir;;
        let review_path := json_path review_dir image_path in
        write_json review_path (review_record image_path resp max_conf);;
        logging (LogSavedLowConfidence review_path)
      else mret tt
  end.

(** ** NewImageHandler.on_created (agent.py, lines 76-88) *)

Record NewImageHandler := {
  h_api_url : string;
  h_threshold : float;
  h_review_dir : Path;
  h_results_dir : Path;
}.

Record event := { is_directory : bool; src_path : Path }.

Definition on_created (self : NewImageHandler) (ev : event) : M unit :=
  if is_directory ev then mret tt
  else
    let path := src_path ev in
    if is_image_file path
    then handle_image (h_api_url self) path (h_threshold self)
           (h_review_dir self) (h_results_dir self)
    else mret tt.

(** ** scan_existing_and_process (agent.py, lines 91-94) *)

(** The body of the loop. *)
Definition scan_step (api_url : string) (threshold : float)
    (review_dir results_dir : Path) (p : Path) : M unit :=
  isf ← path_is_file p;
  if isf && is_image_file p
  then handle_image api_url p threshold review_dir results_dir
  else mret tt.

Definition scan_existing_and_process (watch_dir : Path) (api_url : string)
    (threshold : float) (review_dir results_dir : Path) : M unit :=
  ex ← path_exists watch_dir;
  entries ← (if ex : bool then iterdir watch_dir else mret []);
  for_each (Pathlib.sorted entries) (scan_step api_url threshold review_dir results_dir).

(** ** The classifier, as the specification words it *)

(** The supported extensions, without the dot. *)
Definition image_extensions : list string := ["jpg"; "jpeg"; "png"; "bmp"; "gif"].

(** ** The extractor, as the specification words it *)

(** The numeric values under [confidence], [score], [probability] of one
    mapping, in that order. *)
Definition numeric_fields (d : gmap string json) : list json :=
  omap (dict_number d) conf_keys.

(** The numeric fields of every element that is itself a mapping. *)
Definition candidates (l : list json) : list json :=
  l ≫= λ e, match e with JDict d => numeric_fields d | _ => [] end.

(** The running maximum, initialised to [0.0]. *)
Definition running_max (xs : list float) : float :=
  foldl PyFloat.max PyFloat.zero xs.

(** Every value of [vs] converts, to the floats [xs]. *)
Definition converts (vs : list json) (xs : list float) : Prop :=
  Forall2 (λ v x, py_float v = Ok x) vs xs.

(** ** The pipeline, as the specification words it *)

(** The exceptions of the file system. *)
Definition is_io_error (e : exn) : bool :=
  match e with
  | FileNotFoundError _ | FileExistsError _ | NotADirectoryError _
  | IsADirectoryError _ | PermissionError _ => true
  | _ => false
  end.

(** The regular files of a file system, with what they hold. *)
Definition files_of (f : gmap Path node) : gmap Path content :=
  omap (λ n, match n with NFile c => Some c | NDir => None end) f.

(** Attempt number [k] at uploading [p] fails: [p] is not a file that can be
    opened, or the endpoint does not answer it with a JSON body. *)
Definition attempt_fails (w : World) (api_url : string) (p : Path) (k : nat) : Prop :=
  is_file_in (fs w) p = false ∨ endpoint w k api_url p = None.

(** The world after three failed attempts on [p], logged by [handle_image]. *)
Definition after_failed_upload (p : Path) (w : World) : World :=
  mkWorld (fs w) (denied w) (endpoint w) (3 + attempts w)
    (log w ++ [LogProcessing p; LogFailedToSend p RetryError]).

(** The entries the startup scan keeps, in the order it visits them. *)
Definition scan_targets (w : World) (watch_dir : Path) : list Path :=
  filter (λ p, is_file_in (fs w) p && is_image_file p = true)
    (Pathlib.sorted (children (fs w) watch_dir)).

(** Nothing that exists changes kind or disappears from [w] to [w']. *)
Definition kinds_kept (w w' : World) : Prop :=
  ∀ q, is_Some (node_at (fs w) q) →
    is_Some (node_at (fs w') q) ∧ is_file_in (fs w') q = is_file_in (fs w) q.

(** [m] keeps the kinds, however it ends. *)
Definition keeps_kinds {A} (m : M A) : Prop :=
  ∀ w r w', m w = (r, w') → kinds_kept w w'.

(** The files once the records of one image are written: the results record
    always, the review record when the score is strictly below the threshold. *)
Definition records_written (image_path : Path) (resp : json) (threshold : float)
    (review_dir results_dir : Path) (files : gmap Path content) : gmap Path content :=
  let files1 :=
    <[json_path results_dir image_path := Document (result_record image_path resp)]> files in
  match extract_max_confidence resp with
  | Ok max_conf =>
      if PyFloat.lt max_conf threshold
      then <[json_path review_dir image_path :=
               Document (review_record image_path resp max_conf)]> files1
      else files1
  | Raise _ => files1
  end.

(** ** Frames: what a computation leaves alone, and what it may raise *)

(** [m] takes every world to one that [R] relates to it, however it ends. *)
Definition respects {A} (R : relation World) (m : M A) : Prop :=
  ∀ w r w', m w = (r, w') → R w w'.

(** [m] raises only exceptions that satisfy [P]. *)
Definition raises_only {A} (P : exn → Prop) (m : M A) : Prop :=
  ∀ w e w', m w = (Raise e, w') → P e.

(** The regular files are the same but perhaps at the paths of [ps]. *)
Definition same_files_except (ps : list Path) : relation World := λ w w',
  ∀ q, q ∉ ps → files_of (fs w') !! q = files_of (fs w) !! q.

(** No file that the classifier takes for an image has changed. *)
Definition images_untouched : relation World := λ w w',
  ∀ q, is_image_file q = true → files_of (fs w') !! q = files_of (fs w) !! q.

(** No attempt was made and the environment is the same. *)
Definition same_requests : relation World := λ w w',
  attempts w' = attempts w ∧ endpoint w' = endpoint w ∧ denied w' = denied w.

(** What [handle_image] does once [send_image] has returned or raised. *)
Definition after_upload (image_path : Path) (threshold : float)
    (review_dir results_dir : Path) (r : result json) : M unit :=
  match r with
  | Raise e => logging (LogFailedToSend image_path e)
  | Ok resp =>
      mkdir_parents results_dir;;
      let out_path := json_path results_dir image_path in
      write_json out_path (result_record image_path resp);;
      max_conf ← lift (extract_max_confidence resp);
      logging (LogMaxConfidence (Pathlib.name image_path) max_conf);;
      if PyFloat.lt max_conf threshold then
        mkdir_parents review_dir;;
        let review_path := json_path review_dir image_path in
        write_json review_path (review_record image_path resp max_conf);;
        logging (LogSavedLowConfidence review_path)
      else mret tt
  end.

(** ** Sample data for the examples *)

Module Samples.

(** [0.5], [0.8], [0.95] and [-0.25] as doubles. *)
Definition f050 : float := S754_finite false 4503599627370496 (-53).
Definition f080 : float := S754_finite false 7205759403792794 (-53).
Definition f095 : float := S754_finite false 8556839292003942 (-53).
Definition fm025 : float := S754_finite true 4503599627370496 (-54).
(** [9007199254740992.0], that is [2.0 ** 53]. *)
Definition f2p53 : float := S754_finite false 4503599627370496 1.

(** [{"detections": [{"confidence": 0.5, "score": true}, "x",
                     {"probability": 0.95}, {"score": -0.25, "label": "cat"}]}] *)
Definition detections_elems : list json :=
  [ JDict (<["confidence" := JFloat f050]> {["score" := JBool true]});
    JStr "x";
    JDict {["probability" := JFloat f095]};
    JDict (<["score" := JFloat fm025]> {["label" := JStr "cat"]}) ].

Definition detections_resp : gmap string json :=
  {["detections" := JList detections_elems]}.

(** [{"detections": [{"confidence": n}]}] and [{"confidence": n}]. *)
Definition detections_int (n : Z) : gmap string json :=
  {["detections" := JList [JDict {["confidence" := JInt n]}]]}.

Definition confidence_of (v : json) : gmap string json := {["confidence" := v]}.

End Samples.

Module Worlds.

Definition api : string := "http://localhost:8000/predict".

(** An endpoint that always answers [resp], and one that always fails. *)
Definition always (resp : json) : nat → string → Path → option json :=
  λ _ _ _, Some resp.
Definition never : nat → string → Path → option json := λ _ _ _, None.

(** A fresh run: nothing refused, no attempt made, nothing logged. *)
Definition fresh (f : gmap Path node) (ep : nat → string → Path → option json) : World :=
  mkWorld f (λ _, false) ep 0 [].

Definition cat : Path := ["images"; "cat.jpg"].
Definition bird : Path := ["images"; "Bird.PNG"].

(** [images/] holds two images, a text file and a directory named like an
    image. *)
Definition images_fs : gmap Path node :=
  {[ ["images"] := NDir;
     cat := NFile Bytes;
     ["images"; "notes.txt"] := NFile Bytes;
     bird := NFile Bytes;
     ["images"; "old.gif"] := NDir ]}.

(** The same, with a regular file where the results directory should go. *)
Definition blocked_fs : gmap Path node := <[ ["results"] := NFile Bytes ]> images_fs.

(** [{"confidence": c}] *)
Definition confidence (c : float) : json := JDict {["confidence" := JFloat c]}.

End Worlds.

Module MoreWorlds.
Import Worlds.

(** An endpoint whose first [n] attempts fail and which then answers [resp]. *)
Definition flaky (n : nat) (resp : json) : nat → string → Path → option json :=
  λ k _ _, if (k <? n)%nat then None else Some resp.

(** [images/] with a text file and a sub-directory only. *)
Definition notes_fs : gmap Path node :=
  {[ ["images"] := NDir;
     ["images"; "notes.txt"] := NFile Bytes;
     ["images"; "old.gif"] := NDir ]}.

(** [{"confidence": 10 ** 400}] *)
Definition huge : json := JDict {["confidence" := JInt (10 ^ 400)]}.

(** The handler [main] builds from its default arguments. *)
Definition handler : NewImageHandler :=
  Build_NewImageHandler api Samples.f080 ["for_review"] ["results"].

End MoreWorlds.

(** * Properties *)

(** ** Float comparison and [max] *)

Module PyFloatFacts.
Import PyFloat.

Lemma lt_irrefl a : lt a a = false.
Proof.
  unfold lt, SFltb.
  destruct a as [s|s| |s m e]; simpl; try done; destruct s; try done;
    rewrite Z.compare_refl; change (Pos.compare_cont Eq m m) with (m ?= m)%positive;
    by rewrite Pos.compare_refl.
Qed.

Lemma lt_trans a b c : lt a b = true → lt b c = true → lt a c = true.
Proof.
  unfold lt, SFltb.
  destruct a as [sa|sa| |sa ma ea], b as [sb|sb| |sb mb eb], c as [sc|sc| |sc mc ec];
    simpl; try done;
    destruct sa; try done; destruct sb; try done; destruct sc; try done.
  all: change (Pos.compare_cont Eq ?p ?q) with (p ?= q)%positive.
  all: destruct (Z.compare_spec ea eb), (Z.compare_spec eb ec), (Z.compare_spec ea ec);
    try done; try lia.
  all: destruct (Pos.compare_spec ma mb), (Pos.compare_spec mb mc), (Pos.compare_spec ma mc);
    simpl; try done; try lia.
Qed.

Lemma lt_asym a b : lt a b = true → lt b a = false.
Proof.
  intros Hab. destruct (lt b a) eqn:Hba; [|done].
  by rewrite <- (lt_irrefl a), (lt_trans a b a).
Qed.


Lemma le_zero_lt a b : le zero a = true → lt a b = true → le zero b = true.
Proof.
  unfold le, lt, SFleb, SFltb, zero.
  destruct a as [sa|sa| |sa ma ea], b as [sb|sb| |sb mb eb]; simpl; try done;
    destruct sa; try done; destruct sb; done.
Qed.

Lemma le_zero_not_negative a : le zero a = true → negative a = false.
Proof.
  unfold le, negative, lt, SFleb, SFltb, zero.
  destruct a as [sa|sa| |sa ma ea]; simpl; try done; by destruct sa.
Qed.

Lemma max_cases a b : max a b = a ∨ max a b = b.
Proof. unfold max. destruct (lt a b); auto. Qed.

Lemma le_zero_max a b : le zero a = true → le zero (max a b) = true.
Proof.
  intros Ha. unfold max. destruct (lt a b) eqn:Hab; [|done].
  by apply (le_zero_lt a).
Qed.

Lemma max_not_lt_r a b : lt (max a b) b = false.
Proof. unfold max. destruct (lt a b) eqn:Hab; [apply lt_irrefl|done]. Qed.

Lemma max_not_lt a b z : lt a z = false → lt (max a b) z = false.
Proof.
  intros Haz. unfold max. destruct (lt a b) eqn:Hab; [|done].
  destruct (lt b z) eqn:Hbz; [|done]. by rewrite <- Haz, (lt_trans a b z).
Qed.

Lemma foldl_max_le_zero xs a : le zero a = true → le zero (foldl max a xs) = true.
Proof. revert a. induction xs as [|x xs IH]; simpl; auto using le_zero_max. Qed.

Lemma foldl_max_not_lt xs a z : lt a z = false → lt (foldl max a xs) z = false.
Proof. revert a. induction xs as [|x xs IH]; simpl; auto using max_not_lt. Qed.

Lemma foldl_max_upper xs a x : x ∈ xs → lt (foldl max a xs) x = false.
Proof.
  revert a. induction xs as [|y xs IH]; intros a Hx; [by apply elem_of_nil in Hx|].
  apply elem_of_cons in Hx as [->|Hx]; simpl; [|by apply IH].
  apply foldl_max_not_lt, max_not_lt_r.
Qed.

Lemma foldl_max_attained xs a : foldl max a xs = a ∨ foldl max a xs ∈ xs.
Proof.
  revert a. induction xs as [|y xs IH]; intros a; simpl; [by left|].
  destruct (IH (max a y)) as [->|Hin]; [|right; by apply list_elem_of_further].
  destruct (max_cases a y) as [->| ->]; [by left|right; apply list_elem_of_here].
Qed.

End PyFloatFacts.

Section extractor.
Import PyFloat PyFloatFacts.

Lemma for_keys_ok d keys xs acc :
  converts (omap (dict_number d) keys) xs →
  for_keys d keys acc = Ok (foldl PyFloat.max acc xs).
Proof.
  revert xs acc. induction keys as [|key keys IH]; intros xs acc Hc; simpl in *.
  - by inv Hc.
  - destruct (dict_number d key) as [v|]; [|by apply IH].
    inv Hc. rewrite H1. simpl. by apply IH.
Qed.

Lemma converts_app vs1 vs2 xs :
  converts (vs1 ++ vs2) xs →
  ∃ xs1 xs2, xs = xs1 ++ xs2 ∧ converts vs1 xs1 ∧ converts vs2 xs2.
Proof.
  intros H. apply Forall2_app_inv_l in H as (xs1 & xs2 & ? & ? & ->). eauto.
Qed.

Lemma for_elems_ok l xs acc :
  converts (candidates l) xs → for_elems l acc = Ok (foldl PyFloat.max acc xs).
Proof.
  revert xs acc. induction l as [|e l IH]; intros xs acc Hc.
  - by inv Hc.
  - unfold candidates in Hc. rewrite bind_cons in Hc.
    apply converts_app in Hc as (xs1 & xs2 & -> & H1 & H2).
    rewrite foldl_app.
    destruct e; cbn [for_elems]; try (inv H1; by apply IH).
    rewrite (for_keys_ok m conf_keys xs1 acc H1). simpl. by apply IH.
Qed.

Lemma for_keys_le_zero d keys acc r :
  le zero acc = true → for_keys d keys acc = Ok r → le zero r = true.
Proof.
  revert acc. induction keys as [|key keys IH]; intros acc Hacc; simpl.
  - by intros [= <-].
  - destruct (dict_number d key) as [v|]; [|by apply IH].
    destruct (py_float v) as [x|]; simpl; [|done]. apply IH. by apply le_zero_max.
Qed.

Lemma for_elems_le_zero l acc r :
  le zero acc = true → for_elems l acc = Ok r → le zero r = true.
Proof.
  revert acc. induction l as [|e l IH]; intros acc Hacc; cbn [for_elems].
  - by intros [= <-].
  - destruct e; try by apply IH.
    destruct (for_keys m conf_keys acc) as [mc|] eqn:Hk; simpl; [|done].
    apply IH. by apply (for_keys_le_zero m conf_keys acc).
Qed.

End extractor.

Section extractor_claims.
Import PyFloat PyFloatFacts.

(** C4, as amended: for every JSON mapping with a key [detections] whose value
    is a sequence, when every numeric value under [confidence], [score],
    [probability] in the elements that are mappings converts to a float,
    [extract_max_confidence] returns the running maximum, initialised to 0.0,
    of those floats taken in order; the result is at least 0.0, no candidate
    is greater than it, and it is 0.0 or one of the candidates. *)
Theorem extract_detections_running_max (m : gmap string json) (l : list json)
    (xs : list float) :
  m !! "detections" = Some (JList l) →
  converts (candidates l) xs →
  extract_max_confidence (JDict m) = Ok (running_max xs)
  ∧ le zero (running_max xs) = true
  ∧ (∀ x, x ∈ xs → lt (running_max xs) x = false)
  ∧ (running_max xs = zero ∨ running_max xs ∈ xs).
Proof.
  intros Hm Hc. repeat apply conj.
  - unfold extract_max_confidence, dict_list. rewrite Hm. by apply for_elems_ok.
  - by apply foldl_max_le_zero.
  - intros x Hx. by apply foldl_max_upper.
  - apply foldl_max_attained.
Qed.

(** The maximum of 0.5, 1.0 (from [true]), 0.95 and -0.25 is 1.0. *)
Lemma extract_detections_running_max_witness :
  extract_max_confidence (JDict Samples.detections_resp) = Ok one
  ∧ le zero one = true
  ∧ (∀ x, x ∈ [Samples.f050; one; Samples.f095; Samples.fm025] → lt one x = false)
  ∧ (one = zero ∨ one ∈ [Samples.f050; one; Samples.f095; Samples.fm025]).
Proof.
  apply (extract_detections_running_max Samples.detections_resp
           Samples.detections_elems [Samples.f050; one; Samples.f095; Samples.fm025]).
  - reflexivity.
  - vm_compute. repeat (constructor; [reflexivity|]). constructor.
Defined.

(** C4, the claim as stated fails: an integer beyond the range of a double
    makes [float()] raise, so nothing is returned; and a large integer within
    range is rounded, so the result is not the maximum of the values. *)
Lemma extract_detections_overflow :
  Samples.detections_int (10 ^ 400) !! "detections"
    = Some (JList [JDict {["confidence" := JInt (10 ^ 400)]}])
  ∧ extract_max_confidence (JDict (Samples.detections_int (10 ^ 400)))
    = Raise OverflowError
  ∧ extract_max_confidence (JDict (Samples.detections_int (2 ^ 53 + 1)))
    = Ok Samples.f2p53
  ∧ py_float (JInt (2 ^ 53)) = Ok Samples.f2p53.
Proof. repeat apply conj; vm_compute; reflexivity. Qed.

(** Whatever the branch through a [detections] or [predictions] sequence
    returns is at least 0.0. *)
Lemma extract_sequence_le_zero (m : gmap string json) (l : list json) (r : float) :
  dict_list m "detections" = Some l
  ∨ (dict_list m "detections" = None ∧ dict_number m "confidence" = None
     ∧ dict_list m "predictions" = Some l) →
  extract_max_confidence (JDict m) = Ok r →
  le zero r = true.
Proof.
  unfold extract_max_confidence.
  intros [-> | (-> & -> & ->)]; by apply for_elems_le_zero.
Qed.

(** C5, as amended: for every JSON mapping with a numeric top-level
    [confidence] and no [detections] sequence, [extract_max_confidence]
    returns [float(confidence)] whenever that conversion succeeds: a float is
    returned verbatim, with no floor at 0.0, so a negative [confidence] comes
    back negative; the [detections] and [predictions] branches never return
    below 0.0. *)
Theorem extract_confidence_verbatim :
  (∀ (m : gmap string json) (v : json),
      dict_list m "detections" = None → dict_number m "confidence" = Some v →
      extract_max_confidence (JDict m) = py_float v)
  ∧ (∀ (m : gmap string json) (f : float),
      dict_list m "detections" = None → m !! "confidence" = Some (JFloat f) →
      extract_max_confidence (JDict m) = Ok f)
  ∧ (∀ (m : gmap string json) (l : list json) (r : float),
      dict_list m "detections" = Some l
      ∨ (dict_list m "detections" = None ∧ dict_number m "confidence" = None
         ∧ dict_list m "predictions" = Some l) →
      extract_max_confidence (JDict m) = Ok r →
      negative r = false).
Proof.
  split; [|split].
  - intros m v Hd Hc. unfold extract_max_confidence. by rewrite Hd, Hc.
  - intros m f Hd Hc. unfold extract_max_confidence, dict_number.
    by rewrite Hd, Hc.
  - intros m l r Hm Hr. eapply le_zero_not_negative, extract_sequence_le_zero; eauto.
Qed.

(** [{"confidence": -0.25}] scores -0.25. *)
Lemma extract_confidence_verbatim_witness :
  extract_max_confidence (JDict (Samples.confidence_of (JFloat Samples.fm025)))
    = Ok Samples.fm025
  ∧ negative Samples.fm025 = true
  ∧ negative one = false.
Proof.
  destruct extract_confidence_verbatim as (_ & Hfloat & Hfloor).
  split; [|split].
  - apply Hfloat; reflexivity.
  - reflexivity.
  - apply (Hfloor Samples.detections_resp Samples.detections_elems one).
    + left. reflexivity.
    + vm_compute. reflexivity.
Defined.

(** C5, the claim as stated fails: an integer [confidence] is not returned
    verbatim but converted, which rounds [2 ** 53 + 1] to [2.0 ** 53] and
    raises on [10 ** 400]. *)
Lemma extract_confidence_int_not_verbatim :
  dict_list (Samples.confidence_of (JInt (2 ^ 53 + 1))) "detections" = None
  ∧ extract_max_confidence (JDict (Samples.confidence_of (JInt (2 ^ 53 + 1))))
    = Ok Samples.f2p53
  ∧ extract_max_confidence (JDict (Samples.confidence_of (JInt (2 ^ 53))))
    = Ok Samples.f2p53
  ∧ extract_max_confidence (JDict (Samples.confidence_of (JInt (10 ^ 400))))
    = Raise OverflowError.
Proof. repeat apply conj; vm_compute; reflexivity. Qed.

(** C6: for every input that is not a mapping, and for every mapping with no
    [detections] sequence, no numeric [confidence] and no [predictions]
    sequence holding a numeric field, [extract_max_confidence] returns exactly
    0.0. *)
Theorem extract_unrecognized_zero :
  (∀ j : json, (∀ m, j ≠ JDict m) → extract_max_confidence j = Ok zero)
  ∧ (∀ m : gmap string json,
      dict_list m "detections" = None →
      dict_number m "confidence" = None →
      (dict_list m "predictions" = None
       ∨ ∃ l, dict_list m "predictions" = Some l ∧ candidates l = []) →
      extract_max_confidence (JDict m) = Ok zero).
Proof.
  split.
  - intros j Hj. destruct j; try done. by destruct (Hj m).
  - intros m Hd Hc Hp. unfold extract_max_confidence. rewrite Hd, Hc.
    destruct Hp as [-> | (l & -> & Hl)]; [done|].
    apply (for_elems_ok l [] zero). rewrite Hl. constructor.
Qed.

(** A list, [null], a number and two mappings of no recognised shape. *)
Lemma extract_unrecognized_zero_witness :
  extract_max_confidence (JList [JFloat Samples.f095]) = Ok zero
  ∧ extract_max_confidence JNull = Ok zero
  ∧ extract_max_confidence (JInt 7) = Ok zero
  ∧ extract_max_confidence
      (JDict (<["detections" := JStr "none"]> {["confidence" := JStr "high"]}))
    = Ok zero
  ∧ extract_max_confidence
      (JDict {["predictions" := JList [JDict {["label" := JStr "cat"]}; JInt 3]]})
    = Ok zero.
Proof.
  destruct extract_unrecognized_zero as [Hother Hdict].
  repeat apply conj.
  - apply Hother. discriminate.
  - apply Hother. discriminate.
  - apply Hother. discriminate.
  - apply Hdict; [reflexivity | reflexivity | left; reflexivity].
  - apply Hdict; [reflexivity | reflexivity |].
    right. eexists. split; reflexivity.
Defined.

(** C10: JSON booleans count as numbers: a boolean [confidence] at the top
    level is returned as [float(b)], so [true] yields 1.0, and a boolean
    under one of the three keys of a [detections] or [predictions] element
    enters the running maximum as [float(b)]. *)
Theorem extract_bool_is_numeric :
  (∀ (m : gmap string json) (b : bool),
      dict_list m "detections" = None → m !! "confidence" = Some (JBool b) →
      extract_max_confidence (JDict m) = Ok (of_bool b))
  ∧ (∀ (d : gmap string json) (key : string) (b : bool) (acc : float),
      d !! key = Some (JBool b) →
      for_keys d [key] acc = Ok (PyFloat.max acc (of_bool b)))
  ∧ extract_max_confidence (JDict {["confidence" := JBool true]}) = Ok one
  ∧ extract_max_confidence
      (JDict {["detections" := JList [JDict {["confidence" := JBool true]}]]})
    = Ok one
  ∧ extract_max_confidence
      (JDict {["predictions" := JList [JDict {["confidence" := JBool true]}]]})
    = Ok one.
Proof.
  split; [|split; [|by vm_compute]].
  - intros m b Hd Hc. unfold extract_max_confidence, dict_number.
    by rewrite Hd, Hc.
  - intros d key b acc Hk. simpl. unfold dict_number. by rewrite Hk.
Qed.

(** [true] at the top level, and under [score] in an element. *)
Lemma extract_bool_is_numeric_witness :
  extract_max_confidence
    (JDict (<["confidence" := JBool true]> {["predictions" := JList []]}))
    = Ok one
  ∧ for_keys {["score" := JBool true]} ["score"] Samples.f050 = Ok one.
Proof.
  destruct extract_bool_is_numeric as (Htop & Helem & _).
  split.
  - apply (Htop _ true); reflexivity.
  - apply (Helem _ "score" true Samples.f050). reflexivity.
Defined.

End extractor_claims.

(** ** pathlib: suffixes, and [is_image_file] *)

Module PathlibFacts.
Import Pathlib.

Lemma app_nil t : "" +:+ t = t.
Proof. reflexivity. Qed.

Lemma app_cons c s t : String c s +:+ t = String c (s +:+ t).
Proof. reflexivity. Qed.

Lemma lower_ascii_dot c : Ascii.eqb (lower_ascii c) "." = Ascii.eqb c ".".
Proof. by destruct c as [[] [] [] [] [] [] [] []]. Qed.

Lemma rfind_dot_lower s : rfind_dot (lower s) = rfind_dot s.
Proof.
  induction s as [|c s IH]; [done|].
  cbn [lower rfind_dot]. by rewrite IH, lower_ascii_dot.
Qed.

Lemma lower_app s t : lower (s +:+ t) = lower s +:+ lower t.
Proof.
  induction s as [|c s IH]; [done|].
  rewrite app_cons. cbn [lower]. by rewrite app_cons, IH.
Qed.

Lemma length_app s t :
  String.length (s +:+ t) = (String.length s + String.length t)%nat.
Proof.
  induction s as [|c s IH]; [done|].
  rewrite app_cons. cbn [String.length]. by rewrite IH.
Qed.



Lemma drop_app s t : str_drop (String.length s) (s +:+ t) = t.
Proof.
  induction s as [|c s IH]; [by destruct t|].
  by rewrite app_cons.
Qed.

Lemma take_app s t : str_take (String.length s) (s +:+ t) = s.
Proof.
  induction s as [|c s IH]; [by destruct t|].
  rewrite app_cons. cbn [String.length str_take]. by rewrite IH.
Qed.


Lemma rfind_dot_app base ext :
  rfind_dot ext = None →
  rfind_dot (base +:+ String "." ext) = Some (String.length base).
Proof.
  intros Hext. induction base as [|c base IH].
  - rewrite app_nil. cbn [rfind_dot]. by rewrite Hext.
  - rewrite app_cons. cbn [rfind_dot String.length]. by rewrite IH.
Qed.

End PathlibFacts.

Section classifier.
Import Pathlib PathlibFacts.

Lemma splits_at_iff nm i :
  splits_at nm i = true ↔ (0 < i ∧ i < String.length nm - 1)%nat.
Proof.
  unfold splits_at. rewrite andb_true_iff, !Nat.ltb_lt. done.
Qed.




Lemma image_extension_plain ext :
  ext ∈ image_extensions → ext ≠ "" ∧ rfind_dot ext = None.
Proof.
  unfold image_extensions. rewrite !elem_of_cons, elem_of_nil.
  intros [-> | [-> | [-> | [-> | [-> | []]]]]]; done.
Qed.


(** The classifier on a few names: case does not matter, only the last
    suffix counts, and a name that starts with its only dot has none. *)
Example is_image_file_samples :
  is_image_file ["images"; "cat.jpg"] = true
  ∧ is_image_file ["images"; "Bird.PNG"] = true
  ∧ is_image_file ["scan.tar.JpEg"] = true
  ∧ is_image_file ["images"; "notes.txt"] = false
  ∧ is_image_file ["images"; "cat.jpg.bak"] = false
  ∧ is_image_file [".gif"] = false
  ∧ is_image_file ["gif"] = false
  ∧ is_image_file ["cat.jpg"; "readme"] = false
  ∧ is_image_file [] = false.
Proof. repeat apply conj; vm_compute; reflexivity. Qed.

End classifier.

(** ** The monad *)

Section monad.

Lemma bind_Ok {A B} (m : M A) (k : A → M B) w a w' :
  m w = (Ok a, w') → (m ≫= k) w = k a w'.
Proof. intros H. unfold mbind, M_bind. by rewrite H. Qed.

Lemma bind_Raise {A B} (m : M A) (k : A → M B) w e w' :
  m w = (Raise e, w') → (m ≫= k) w = (Raise e, w').
Proof. intros H. unfold mbind, M_bind. by rewrite H. Qed.

Lemma bind_inv {A B} (m : M A) (k : A → M B) w r w' :
  (m ≫= k) w = (r, w') →
  (∃ a w1, m w = (Ok a, w1) ∧ k a w1 = (r, w'))
  ∨ (∃ e, m w = (Raise e, w') ∧ r = Raise e).
Proof.
  unfold mbind, M_bind. destruct (m w) as [[a|e] w1]; intros H.
  - left. eauto.
  - right. exists e. by inv H.
Qed.

Lemma try_except_eq {A} (m : M A) w r w' :
  m w = (r, w') → try_except m w = (Ok r, w').
Proof. intros H. unfold try_except. by rewrite H. Qed.

Lemma for_each_cons_Ok {A} (x : A) l body w w' :
  body x w = (Ok tt, w') → for_each (x :: l) body w = for_each l body w'.
Proof. intros H. cbn [for_each]. by rewrite (bind_Ok _ _ _ _ _ H). Qed.

Lemma for_each_cons_Raise {A} (x : A) l body w e w' :
  body x w = (Raise e, w') → for_each (x :: l) body w = (Raise e, w').
Proof. intros H. cbn [for_each]. by rewrite (bind_Raise _ _ _ _ _ H). Qed.

Global Instance kinds_kept_refl : Reflexive kinds_kept.
Proof. by intros w q Hq. Qed.

Global Instance kinds_kept_trans : Transitive kinds_kept.
Proof.
  intros w1 w2 w3 H12 H23 q Hq.
  destruct (H12 q Hq) as [Hq2 E12]. destruct (H23 q Hq2) as [Hq3 E23].
  split; [done|congruence].
Qed.

Lemma keeps_kinds_ret {A} (a : A) : keeps_kinds (mret a).
Proof. intros w r w' [= <- <-]. reflexivity. Qed.

Lemma keeps_kinds_bind {A B} (m : M A) (k : A → M B) :
  keeps_kinds m → (∀ a, keeps_kinds (k a)) → keeps_kinds (m ≫= k).
Proof.
  intros Hm Hk w r w' H.
  apply bind_inv in H as [(a & w1 & H1 & H2) | (e & H1 & _)].
  - trans w1; [by eapply Hm | by eapply Hk].
  - by eapply Hm.
Qed.

Lemma keeps_kinds_try {A} (m : M A) : keeps_kinds m → keeps_kinds (try_except m).
Proof.
  intros Hm w r w'. unfold try_except.
  destruct (m w) as [r1 w1] eqn:H1. intros [= <- <-]. by eapply Hm.
Qed.

Lemma keeps_kinds_for_each {A} (l : list A) body :
  (∀ x, keeps_kinds (body x)) → keeps_kinds (for_each l body).
Proof.
  intros Hb. induction l as [|x l IH]; cbn [for_each].
  - apply keeps_kinds_ret.
  - apply keeps_kinds_bind; [apply Hb | done].
Qed.

Lemma keeps_kinds_same_fs {A} (m : M A) :
  (∀ w r w', m w = (r, w') → fs w' = fs w) → keeps_kinds m.
Proof. intros H w r w' Hm q Hq. by rewrite (H w r w' Hm). Qed.

End monad.

(** ** Uploads *)

Section upload.
Context (api_url : string) (image_path : Path).

(** One attempt changes nothing but the count of attempts. *)
Lemma send_image_body_world w r w' :
  send_image_body api_url image_path w = (r, w') → w' = count_attempt w.
Proof.
  unfold send_image_body.
  destruct (node_at (fs w) image_path) as [[c|]|];
    [destruct (endpoint w (attempts w) api_url image_path)|..];
    by intros [= <- <-].
Qed.

Lemma send_image_body_fails w :
  attempt_fails w api_url image_path (attempts w) →
  ∃ e, send_image_body api_url image_path w = (Raise e, count_attempt w).
Proof.
  unfold attempt_fails, is_file_in, send_image_body.
  destruct (node_at (fs w) image_path) as [[c|]|]; [|eauto..].
  intros [|He]; [done|]. rewrite He. eauto.
Qed.

Lemma retry_all_fail n w :
  (∀ k, attempt_fails w api_url image_path k) →
  retry n (send_image_body api_url image_path) w
  = (Raise RetryError,
     mkWorld (fs w) (denied w) (endpoint w) (n + attempts w) (log w)).
Proof.
  revert w. induction n as [|n IH]; intros w Hall; cbn [retry].
  - by destruct w.
  - destruct (send_image_body_fails w (Hall _)) as [e He].
    rewrite (bind_Ok _ _ _ _ _ (try_except_eq _ _ _ _ He)).
    rewrite IH by done. cbn. do 2 f_equal. lia.
Qed.

Lemma retry_world n w r w' :
  retry n (send_image_body api_url image_path) w = (r, w') →
  fs w' = fs w ∧ denied w' = denied w ∧ endpoint w' = endpoint w ∧ log w' = log w.
Proof.
  revert w. induction n as [|n IH]; intros w; cbn [retry].
  - by intros [= <- <-].
  - destruct (send_image_body api_url image_path w) as [r1 w1] eqn:H1.
    rewrite (bind_Ok _ _ _ _ _ (try_except_eq _ _ _ _ H1)).
    apply send_image_body_world in H1 as ->.
    destruct r1 as [a|e]; [by intros [= <- <-]|].
    intros H. by apply IH in H.
Qed.

(** What is logged meanwhile does not matter to the upload. *)
Lemma retry_add_log n rec w :
  retry n (send_image_body api_url image_path) (add_log rec w)
  = (let '(r, w') := retry n (send_image_body api_url image_path) w in
     (r, add_log rec w')).
Proof.
  revert w. induction n as [|n IH]; intros w; cbn [retry]; [done|].
  unfold mbind, M_bind, try_except, send_image_body. cbn.
  destruct (node_at (fs w) image_path) as [[c|]|];
    [destruct (endpoint w (attempts w) api_url image_path)|..];
    try done; apply (IH (count_attempt w)).
Qed.

End upload.

Section upload_fails.
Context (api_url : string) (threshold : float) (review_dir results_dir : Path).

Lemma handle_image_all_fail image_path w :
  (∀ k, attempt_fails w api_url image_path k) →
  handle_image api_url image_path threshold review_dir results_dir w
  = (Ok tt, after_failed_upload image_path w).
Proof.
  intros Hall. unfold handle_image, logging.
  rewrite (bind_Ok _ _ w tt (add_log (LogProcessing image_path) w)) by done.
  pose proof (retry_all_fail api_url image_path stop_after_attempt
                (add_log (LogProcessing image_path) w) Hall) as Hsend.
  rewrite (bind_Ok _ _ _ _ _ (try_except_eq _ _ _ _ Hsend)).
  unfold after_failed_upload, add_log. cbn. by rewrite <- app_assoc.
Qed.

(** C3: when every upload attempt for an image fails, [send_image] runs its
    body exactly 3 times and raises; [handle_image] catches that, leaves the
    file system as it was (no results file, no review file), and returns
    normally, so that the scan goes on with the entries that follow and
    [on_created] returns to the observer. *)
Theorem upload_failure_is_isolated (image_path : Path) (w : World) :
  (∀ k, attempt_fails w api_url image_path k) →
  send_image api_url image_path w
    = (Raise RetryError,
       mkWorld (fs w) (denied w) (endpoint w) (3 + attempts w) (log w))
  ∧ handle_image api_url image_path threshold review_dir results_dir w
    = (Ok tt, after_failed_upload image_path w)
  ∧ fs (after_failed_upload image_path w) = fs w
  ∧ attempts (after_failed_upload image_path w) = (3 + attempts w)%nat
  ∧ (∀ rest : list Path,
      is_file_in (fs w) image_path = true → is_image_file image_path = true →
      for_each (image_path :: rest)
        (scan_step api_url threshold review_dir results_dir) w
      = for_each rest (scan_step api_url threshold review_dir results_dir)
          (after_failed_upload image_path w))
  ∧ (is_image_file image_path = true →
      on_created (Build_NewImageHandler api_url threshold review_dir results_dir)
        (Build_event false image_path) w
      = (Ok tt, after_failed_upload image_path w)).
Proof.
  intros Hall. split; [|split; [|split; [|split; [|split]]]].
  - apply (retry_all_fail api_url image_path 3 w Hall).
  - by apply handle_image_all_fail.
  - reflexivity.
  - reflexivity.
  - intros rest Hf Hi. apply for_each_cons_Ok.
    unfold scan_step, path_is_file.
    rewrite (bind_Ok _ _ w (is_file_in (fs w) image_path) w) by done.
    rewrite Hf, Hi. by apply handle_image_all_fail.
  - intros Hi. unfold on_created. cbn. rewrite Hi.
    by apply handle_image_all_fail.
Qed.

End upload_fails.

(** C9: when the watch directory does not exist, [scan_existing_and_process]
    raises nothing and processes nothing: it loops over the empty list and
    returns with the world as it was. *)
Theorem scan_missing_directory (watch_dir : Path) (api_url : string)
    (threshold : float) (review_dir results_dir : Path) (w : World) :
  node_at (fs w) watch_dir = None →
  scan_existing_and_process watch_dir api_url threshold review_dir results_dir w
  = (Ok tt, w).
Proof.
  intros Hnone. unfold scan_existing_and_process, path_exists.
  rewrite (bind_Ok _ _ w false w).
  - done.
  - by rewrite Hnone.
Qed.

(** ** File-system primitives *)

Section filesystem.

Lemma node_at_None f q : node_at f q = None → f !! q = None.
Proof. unfold node_at. by case_decide. Qed.

Lemma node_at_insert f q n p :
  node_at f q = None → node_at (<[q := n]> f) p
  = if decide (p = q) then Some n else node_at f p.
Proof.
  unfold node_at. destruct (decide (q = [] ∨ q = ["/"])) as [|Hqs]; [done|].
  intros _. destruct (decide (p = [] ∨ p = ["/"])) as [Hs|Hs].
  - case_decide as Hpq; [|done]. by subst p.
  - case_decide as Hpq; [subst; apply lookup_insert_eq|by apply lookup_insert_ne].
Qed.

Lemma node_at_insert_file f p c c' q :
  node_at f p = Some (NFile c) → node_at (<[p := NFile c']> f) q
  = if decide (q = p) then Some (NFile c') else node_at f q.
Proof.
  unfold node_at. destruct (decide (p = [] ∨ p = ["/"])) as [|Hps]; [done|].
  intros _. destruct (decide (q = [] ∨ q = ["/"])) as [Hs|Hs].
  - case_decide as Hqp; [|done]. by subst q.
  - case_decide as Hqp; [subst; apply lookup_insert_eq|by apply lookup_insert_ne].
Qed.

Lemma files_of_insert_dir f q :
  f !! q = None → files_of (<[q := NDir]> f) = files_of f.
Proof.
  intros Hq. unfold files_of. rewrite omap_insert_None by done.
  apply delete_id. by rewrite lookup_omap, Hq.
Qed.

Lemma files_of_insert_file f p c :
  files_of (<[p := NFile c]> f) = <[p := c]> (files_of f).
Proof. unfold files_of. by apply omap_insert_Some. Qed.

Lemma mkdir_level_inv d q w r w' :
  mkdir_level d q w = (r, w') →
  files_of (fs w') = files_of (fs w)
  ∧ (∀ e, r = Raise e → is_io_error e = true)
  ∧ kinds_kept w w'.
Proof.
  unfold mkdir_level.
  destruct (node_at (fs w) q) as [[c|]|] eqn:Hq.
  - intros [= <- <-]. repeat apply conj; [done| |done].
    intros e [= <-]. by case_decide.
  - intros [= <- <-]. by repeat apply conj.
  - destruct (denied w q); intros [= <- <-].
    + repeat apply conj; [done| |done]. by intros e [= <-].
    + repeat apply conj; [|done|].
      * cbn. apply files_of_insert_dir. by apply node_at_None.
      * intros p Hp. unfold is_file_in. cbn.
        rewrite (node_at_insert _ _ _ _ Hq). case_decide as Hpq; [|done].
        subst p. rewrite Hq in Hp. by destruct Hp.
Qed.

Lemma for_each_mkdir_inv d qs w r w' :
  for_each qs (mkdir_level d) w = (r, w') →
  files_of (fs w') = files_of (fs w)
  ∧ (∀ e, r = Raise e → is_io_error e = true)
  ∧ kinds_kept w w'.
Proof.
  revert w. induction qs as [|q qs IH]; intros w; cbn [for_each].
  - intros [= <- <-]. by repeat apply conj.
  - intros H. apply bind_inv in H as [([] & w1 & H1 & H2) | (e & H1 & ->)].
    + apply mkdir_level_inv in H1 as (F1 & _ & K1).
      apply IH in H2 as (F2 & E2 & K2).
      repeat apply conj; [congruence|done|by trans w1].
    + apply mkdir_level_inv in H1 as (F1 & E1 & K1).
      repeat apply conj; [done| |done]. intros e' [= <-]. by apply E1.
Qed.

Lemma mkdir_parents_inv d w r w' :
  mkdir_parents d w = (r, w') →
  files_of (fs w') = files_of (fs w)
  ∧ (∀ e, r = Raise e → is_io_error e = true)
  ∧ kinds_kept w w'.
Proof. apply for_each_mkdir_inv. Qed.

Lemma write_json_inv p j w r w' :
  write_json p j w = (r, w') →
  ((r = Ok tt ∧ files_of (fs w') = <[p := Document j]> (files_of (fs w)))
   ∨ (∃ e, r = Raise e ∧ is_io_error e = true ∧ w' = w))
  ∧ kinds_kept w w'.
Proof.
  unfold write_json.
  assert (∀ e, is_io_error e = true →
    (Raise e : result unit, w) = (r, w') →
    ((r = Ok tt ∧ files_of (fs w') = <[p := Document j]> (files_of (fs w)))
     ∨ (∃ e, r = Raise e ∧ is_io_error e = true ∧ w' = w)) ∧ kinds_kept w w') as Hfail.
  { intros e He [= <- <-]. split; [right; by exists e|done]. }
  destruct (node_at (fs w) p) as [[c|]|] eqn:Hp.
  - destruct (denied w p); [by apply Hfail|].
    intros [= <- <-]. split; [left; split; [done|apply files_of_insert_file]|].
    intros q Hq. unfold is_file_in. cbn.
    rewrite (node_at_insert_file _ _ _ _ _ Hp). case_decide as Hqp; [|done].
    subst q. by rewrite Hp.
  - by apply Hfail.
  - destruct (node_at (fs w) (Pathlib.parent p)) as [[c|]|]; [by apply Hfail| |by apply Hfail].
    destruct (denied w p); [by apply Hfail|].
    intros [= <- <-]. split; [left; split; [done|apply files_of_insert_file]|].
    intros q Hq. unfold is_file_in. cbn.
    rewrite (node_at_insert _ _ _ _ Hp). case_decide as Hqp; [|done].
    subst q. rewrite Hp in Hq. by destruct Hq.
Qed.

End filesystem.

Section triage.
Context (api_url : string) (threshold : float) (review_dir results_dir : Path).

Lemma send_image_logged image_path rec w r w1 :
  send_image api_url image_path w = (r, w1) →
  send_image api_url image_path (add_log rec w) = (r, add_log rec w1)
  ∧ fs w1 = fs w.
Proof.
  unfold send_image. intros H. rewrite retry_add_log, H. split; [done|].
  by apply retry_world in H as (? & _).
Qed.


End triage.

Section pipeline.
Context (api_url : string) (threshold : float) (review_dir results_dir : Path).

Lemma keeps_kinds_logging rec : keeps_kinds (logging rec).
Proof. apply keeps_kinds_same_fs. by intros w r w' [= <- <-]. Qed.

Lemma keeps_kinds_lift {A} (r : result A) : keeps_kinds (lift r).
Proof. apply keeps_kinds_same_fs. by intros w r' w' [= <- <-]. Qed.

Lemma keeps_kinds_send_image image_path :
  keeps_kinds (send_image api_url image_path).
Proof.
  apply keeps_kinds_same_fs. intros w r w' H.
  by apply retry_world in H as (? & _).
Qed.

Lemma keeps_kinds_mkdir_parents d : keeps_kinds (mkdir_parents d).
Proof. intros w r w' H. by apply mkdir_parents_inv in H as (_ & _ & ?). Qed.

Lemma keeps_kinds_write_json p j : keeps_kinds (write_json p j).
Proof. intros w r w' H. by apply write_json_inv in H as [_ ?]. Qed.

Lemma keeps_kinds_handle_image image_path :
  keeps_kinds (handle_image api_url image_path threshold review_dir results_dir).
Proof.
  unfold handle_image.
  apply keeps_kinds_bind; [apply keeps_kinds_logging|intros _].
  apply keeps_kinds_bind;
    [apply keeps_kinds_try, keeps_kinds_send_image|intros [resp|e]];
    [|apply keeps_kinds_logging].
  apply keeps_kinds_bind; [apply keeps_kinds_mkdir_parents|intros _].
  apply keeps_kinds_bind; [apply keeps_kinds_write_json|intros _].
  apply keeps_kinds_bind; [apply keeps_kinds_lift|intros max_conf].
  apply keeps_kinds_bind; [apply keeps_kinds_logging|intros _].
  destruct (PyFloat.lt max_conf threshold); [|apply keeps_kinds_ret].
  apply keeps_kinds_bind; [apply keeps_kinds_mkdir_parents|intros _].
  apply keeps_kinds_bind; [apply keeps_kinds_write_json|intros _].
  apply keeps_kinds_logging.
Qed.

Lemma scan_step_eq p w :
  scan_step api_url threshold review_dir results_dir p w
  = if is_file_in (fs w) p && is_image_file p
    then handle_image api_url p threshold review_dir results_dir w
    else (Ok tt, w).
Proof.
  unfold scan_step, path_is_file.
  rewrite (bind_Ok _ _ w (is_file_in (fs w) p) w) by done.
  by destruct (is_file_in (fs w) p && is_image_file p).
Qed.

(** The loop of the scan visits the entries that are image files when the
    scan starts, in the order of the list: what it writes meanwhile changes
    the kind of no entry. *)
Lemma scan_loop_filter (l : list Path) (w0 w : World) :
  kinds_kept w0 w →
  (∀ p, p ∈ l → is_Some (node_at (fs w0) p)) →
  for_each l (scan_step api_url threshold review_dir results_dir) w
  = for_each (filter (λ p, is_file_in (fs w0) p && is_image_file p = true) l)
      (λ p, handle_image api_url p threshold review_dir results_dir) w.
Proof.
  revert w. induction l as [|p l IH]; intros w Hk Hl; [done|].
  assert (is_file_in (fs w) p = is_file_in (fs w0) p) as Hf.
  { apply Hk, Hl. apply list_elem_of_here. }
  assert (∀ q, q ∈ l → is_Some (node_at (fs w0) q)) as Hl'.
  { intros q Hq. by apply Hl, list_elem_of_further. }
  rewrite filter_cons. cbn [for_each]. unfold mbind at 1, M_bind at 1.
  rewrite scan_step_eq, Hf. case_decide as Hkeep.
  - rewrite Hkeep. cbn [for_each]. unfold mbind at 1, M_bind at 1.
    destruct (handle_image api_url p threshold review_dir results_dir w)
      as [[[]|e] w1] eqn:Hh; [|done].
    apply IH; [|done]. trans w; [done|]. by eapply keeps_kinds_handle_image.
  - apply not_true_is_false in Hkeep. rewrite Hkeep. by apply IH.
Qed.

End pipeline.

(** ** Sorting paths *)

Module SortFacts.
Import Pathlib.

Global Instance path_lt_po : StrictOrder path_lt.
Proof. unfold path_lt. apply _. Qed.

Global Instance path_le_trans : Transitive path_le.
Proof.
  intros p q r [-> | Hpq] [-> | Hqr]; unfold path_le; auto.
  right. by trans q.
Qed.

Global Instance path_le_total : Total path_le.
Proof.
  intros p q. unfold path_le.
  destruct (trichotomy path_lt p q) as [?|[?|?]]; auto.
Qed.

Lemma sorted_perm l : sorted l ≡ₚ l.
Proof. apply merge_sort_Permutation. Qed.

Lemma sorted_strongly l : StronglySorted path_le (sorted l).
Proof. apply (StronglySorted_merge_sort path_le). Qed.

Lemma elem_of_sorted p l : p ∈ sorted l ↔ p ∈ l.
Proof. by rewrite sorted_perm. Qed.

(** Sorted without repetition is strictly sorted. *)
Lemma strongly_sorted_strict l :
  StronglySorted path_le l → NoDup l → StronglySorted path_lt l.
Proof.
  induction 1 as [|p l Hl IH Hall]; intros Hnd; [constructor|].
  apply NoDup_cons in Hnd as [Hp Hnd]. constructor; [by apply IH|].
  apply Forall_forall. intros q Hq.
  destruct (proj1 (Forall_forall _ _) Hall q Hq) as [->|]; done.
Qed.

Lemma strongly_sorted_filter {A} (R : relation A) (P : A → Prop)
    `{∀ x, Decision (P x)} l :
  StronglySorted R l → StronglySorted R (filter P l).
Proof.
  induction 1 as [|x l Hl IH Hall]; [constructor|].
  rewrite filter_cons. case_decide; [|done].
  constructor; [done|]. apply Forall_forall. intros y Hy.
  apply list_elem_of_filter in Hy as [_ Hy].
  by apply (proj1 (Forall_forall _ _) Hall).
Qed.

Lemma strongly_sorted_weaken {A} (R R' : relation A) l :
  (∀ x y, x ∈ l → y ∈ l → R x y → R' x y) →
  StronglySorted R l → StronglySorted R' l.
Proof.
  intros Himp Hs. induction Hs as [|x l Hl IH Hall]; [constructor|].
  constructor.
  - apply IH. intros y z Hy Hz. apply Himp; by apply list_elem_of_further.
  - apply Forall_forall. intros y Hy.
    apply Himp; [apply list_elem_of_here|by apply list_elem_of_further|].
    by apply (proj1 (Forall_forall _ _) Hall).
Qed.

(** Under one directory, the order of the paths is the order of the names. *)
Lemma lexico_app_same (d : Path) (a b : string) :
  lexico (d ++ [a]) (d ++ [b]) → lexico a b.
Proof.
  induction d as [|c d IH]; cbn.
  - intros [H | [_ H]]; [done|]. by destruct H.
  - intros [H | [_ H]]; [|by apply IH].
    by apply (irreflexivity lexico c) in H.
Qed.

End SortFacts.

(** ** The startup scan *)

Section scan.
Import Pathlib SortFacts.
Context (api_url : string) (threshold : float) (review_dir results_dir : Path).

Lemma parent_unfold p : p ≠ ["/"] → parent p = take (length p - 1) p.
Proof. intros Hp. unfold parent. by case_decide. Qed.

Lemma name_unfold p : p ≠ ["/"] → name p = default "" (last p).
Proof. intros Hp. unfold name. by case_decide. Qed.

(** A direct entry of [d] is [d] followed by its own name. *)
Lemma is_child_split d p : is_child d p → p = d ++ [name p].
Proof.
  intros (Hne & Hroot & Hpar).
  rewrite name_unfold by done. rewrite parent_unfold in Hpar by done.
  destruct (decide (p = [])) as [|_]; [done|].
  induction p as [|a p _] using rev_ind; [done|].
  rewrite last_snoc. cbn. rewrite <- Hpar.
  rewrite length_app. cbn. replace (length p + 1 - 1)%nat with (length p) by lia.
  by rewrite take_app_length.
Qed.

Lemma is_child_node_at f d p : is_child d p → node_at f p = f !! p.
Proof.
  intros (Hne & Hroot & _). unfold node_at. case_decide as H; [|done].
  by destruct H.
Qed.

Lemma elem_of_children f d p :
  p ∈ children f d ↔ is_child d p ∧ is_Some (f !! p).
Proof.
  unfold children. rewrite list_elem_of_filter, elem_of_elements, elem_of_dom.
  done.
Qed.

Lemma NoDup_children f d : NoDup (children f d).
Proof. apply NoDup_filter, NoDup_elements. Qed.

Lemma elem_of_scan_targets w d p :
  p ∈ scan_targets w d
  ↔ is_child d p ∧ is_file_in (fs w) p = true ∧ is_image_file p = true.
Proof.
  unfold scan_targets.
  rewrite list_elem_of_filter, elem_of_sorted, elem_of_children, andb_true_iff.
  split.
  - intros ((Hf & Hi) & Hc & _). done.
  - intros (Hc & Hf & Hi). split; [done|]. split; [done|].
    unfold is_file_in in Hf. rewrite (is_child_node_at _ _ _ Hc) in Hf.
    destruct (fs w !! p) as [n|]; [by exists n|done].
Qed.

Lemma scan_targets_sorted w d :
  StronglySorted (λ p q, lexico (name p) (name q)) (scan_targets w d).
Proof.
  apply (strongly_sorted_weaken path_lt).
  - intros p q Hp Hq Hlt.
    apply elem_of_scan_targets in Hp as (Hp & _).
    apply elem_of_scan_targets in Hq as (Hq & _).
    apply (lexico_app_same d).
    by rewrite <- (is_child_split d p), <- (is_child_split d q).
  - unfold scan_targets. apply strongly_sorted_filter.
    apply strongly_sorted_strict; [apply sorted_strongly|].
    rewrite sorted_perm. apply NoDup_children.
Qed.

(** C7: the startup scan lists the direct entries of the watched directory,
    sorts them, keeps exactly the entries that are files and pass
    [is_image_file], and runs [handle_image] on the kept entries one after
    the other in that order, which is the strict order of their names. *)
Theorem scan_visits_sorted_images (watch_dir : Path) (w : World) :
  node_at (fs w) watch_dir = Some NDir →
  scan_existing_and_process watch_dir api_url threshold review_dir results_dir w
  = for_each (scan_targets w watch_dir)
      (λ p, handle_image api_url p threshold review_dir results_dir) w
  ∧ (∀ p, p ∈ scan_targets w watch_dir
          ↔ is_child watch_dir p ∧ is_file_in (fs w) p = true
            ∧ is_image_file p = true)
  ∧ (∀ p, p ∈ scan_targets w watch_dir → p = watch_dir ++ [name p])
  ∧ StronglySorted (λ p q, lexico (name p) (name q)) (scan_targets w watch_dir).
Proof.
  intros Hdir. split; [|split; [|split]].
  - unfold scan_existing_and_process, path_exists.
    rewrite (bind_Ok _ _ w true w) by (by rewrite Hdir).
    rewrite (bind_Ok _ _ w (children (fs w) watch_dir) w)
      by (unfold iterdir; by rewrite Hdir).
    apply scan_loop_filter; [done|].
    intros p Hp. apply elem_of_sorted, elem_of_children in Hp as [Hc Hs].
    by rewrite (is_child_node_at _ _ _ Hc).
  - apply elem_of_scan_targets.
  - intros p Hp. apply elem_of_scan_targets in Hp as (Hc & _).
    by apply is_child_split.
  - apply scan_targets_sorted.
Qed.

End scan.

Section io_errors.
Context (api_url : string) (threshold : float) (review_dir results_dir : Path).

(** C2, as amended: an I/O error raised while creating the results or review
    directory or writing the results or review file is not caught:
    [handle_image] raises it, and so do the loop of the startup scan, which
    leaves the entries that follow unprocessed, and [on_created]. *)
Theorem io_errors_are_not_caught (image_path : Path) (w : World) :
  (∀ resp w1 e w2,
      send_image api_url image_path w = (Ok resp, w1) →
      (mkdir_parents results_dir;;
       write_json (json_path results_dir image_path)
         (result_record image_path resp))
        (add_log (LogProcessing image_path) w1) = (Raise e, w2) →
      handle_image api_url image_path threshold review_dir results_dir w
      = (Raise e, w2))
  ∧ (∀ resp w1 w3 max_conf e w5,
      send_image api_url image_path w = (Ok resp, w1) →
      (mkdir_parents results_dir;;
       write_json (json_path results_dir image_path)
         (result_record image_path resp))
        (add_log (LogProcessing image_path) w1) = (Ok tt, w3) →
      extract_max_confidence resp = Ok max_conf →
      PyFloat.lt max_conf threshold = true →
      (mkdir_parents review_dir;;
       write_json (json_path review_dir image_path)
         (review_record image_path resp max_conf))
        (add_log (LogMaxConfidence (Pathlib.name image_path) max_conf) w3)
      = (Raise e, w5) →
      handle_image api_url image_path threshold review_dir results_dir w
      = (Raise e, w5))
  ∧ (∀ e w' rest,
      handle_image api_url image_path threshold review_dir results_dir w
      = (Raise e, w') →
      for_each (image_path :: rest)
        (λ p, handle_image api_url p threshold review_dir results_dir) w
      = (Raise e, w')
      ∧ (is_file_in (fs w) image_path = true → is_image_file image_path = true →
         for_each (image_path :: rest)
           (scan_step api_url threshold review_dir results_dir) w
         = (Raise e, w'))
      ∧ (is_image_file image_path = true →
         on_created
           (Build_NewImageHandler api_url threshold review_dir results_dir)
           (Build_event false image_path) w
         = (Raise e, w'))).
Proof.
  split; [|split].
  - intros resp w1 e w2 Hsend Hio. unfold handle_image, logging.
    rewrite (bind_Ok _ _ w tt (add_log (LogProcessing image_path) w)) by done.
    destruct (send_image_logged api_url image_path (LogProcessing image_path)
                w _ _ Hsend) as [Hsend' _].
    rewrite (bind_Ok _ _ _ _ _ (try_except_eq _ _ _ _ Hsend')).
    apply bind_inv in Hio as [([] & wm & Hm & Hw) | (e' & Hm & [= <-])].
    + rewrite (bind_Ok _ _ _ _ _ Hm). by rewrite (bind_Raise _ _ _ _ _ Hw).
    + by rewrite (bind_Raise _ _ _ _ _ Hm).
  - intros resp w1 w3 max_conf e w5 Hsend Hres Hx Hlt Hio.
    unfold handle_image, logging.
    rewrite (bind_Ok _ _ w tt (add_log (LogProcessing image_path) w)) by done.
    destruct (send_image_logged api_url image_path (LogProcessing image_path)
                w _ _ Hsend) as [Hsend' _].
    rewrite (bind_Ok _ _ _ _ _ (try_except_eq _ _ _ _ Hsend')).
    apply bind_inv in Hres as [([] & wm & Hm & Hw) | (e' & _ & [=])].
    rewrite (bind_Ok _ _ _ _ _ Hm), (bind_Ok _ _ _ _ _ Hw), Hx.
    rewrite (bind_Ok (lift (Ok max_conf)) _ w3 max_conf w3) by done.
    rewrite (bind_Ok _ _ w3 tt
               (add_log (LogMaxConfidence (Pathlib.name image_path) max_conf) w3))
      by done.
    rewrite Hlt.
    apply bind_inv in Hio as [([] & wr & Hmr & Hwr) | (e' & Hmr & [= <-])].
    + rewrite (bind_Ok _ _ _ _ _ Hmr). by rewrite (bind_Raise _ _ _ _ _ Hwr).
    + by rewrite (bind_Raise _ _ _ _ _ Hmr).
  - intros e w' rest Hh. split; [|split].
    + by apply for_each_cons_Raise.
    + intros Hf Hi. apply for_each_cons_Raise.
      by rewrite scan_step_eq, Hf, Hi.
    + intros Hi. unfold on_created. cbn. by rewrite Hi.
Qed.

End io_errors.

Section examples.
Import Worlds.


(** A regular file named [results]: creating the results directory raises,
    and the error leaves [handle_image] and the loop of the scan. *)
Lemma io_errors_are_not_caught_witness :
  handle_image api cat Samples.f080 ["for_review"] ["results"]
    (fresh blocked_fs (always (confidence Samples.f095)))
  = (Raise (FileExistsError ["results"]),
     add_log (LogProcessing cat)
       (count_attempt (fresh blocked_fs (always (confidence Samples.f095)))))
  ∧ for_each [cat; bird]
      (scan_step api Samples.f080 ["for_review"] ["results"])
      (fresh blocked_fs (always (confidence Samples.f095)))
    = (Raise (FileExistsError ["results"]),
       add_log (LogProcessing cat)
         (count_attempt (fresh blocked_fs (always (confidence Samples.f095))))).
Proof.
  destruct (io_errors_are_not_caught api Samples.f080 ["for_review"] ["results"]
              cat (fresh blocked_fs (always (confidence Samples.f095))))
    as (Hres & _ & Hprop).
  assert (handle_image api cat Samples.f080 ["for_review"] ["results"]
            (fresh blocked_fs (always (confidence Samples.f095)))
          = (Raise (FileExistsError ["results"]),
             add_log (LogProcessing cat)
               (count_attempt (fresh blocked_fs (always (confidence Samples.f095))))))
    as Hh.
  { apply (Hres (confidence Samples.f095)
             (count_attempt (fresh blocked_fs (always (confidence Samples.f095)))));
      reflexivity. }
  split; [exact Hh|].
  destruct (Hprop _ _ [bird] Hh) as (_ & Hscan & _).
  apply Hscan; reflexivity.
Defined.

(** C2, the claim as stated fails: with a regular file where the results
    directory should go, the first image of the scan raises
    [FileExistsError], the scan ends with that error, and the second image
    is never uploaded. *)
Lemma scan_aborts_on_io_error :
  scan_targets (fresh blocked_fs (always (confidence Samples.f095))) ["images"]
    = [bird; cat]
  ∧ fst (scan_existing_and_process ["images"] api Samples.f080
           ["for_review"] ["results"]
           (fresh blocked_fs (always (confidence Samples.f095))))
    = Raise (FileExistsError ["results"])
  ∧ attempts (snd (scan_existing_and_process ["images"] api Samples.f080
                     ["for_review"] ["results"]
                     (fresh blocked_fs (always (confidence Samples.f095)))))
    = 1%nat
  ∧ log (snd (scan_existing_and_process ["images"] api Samples.f080
                ["for_review"] ["results"]
                (fresh blocked_fs (always (confidence Samples.f095)))))
    = [LogProcessing bird].
Proof. repeat apply conj; vm_compute; reflexivity. Qed.

(** An endpoint that never answers: three attempts, no file, and the scan
    goes on with the next image. *)
Lemma upload_failure_is_isolated_witness :
  send_image api cat (fresh images_fs never)
    = (Raise RetryError, mkWorld images_fs (λ _, false) never 3 [])
  ∧ handle_image api cat Samples.f080 ["for_review"] ["results"]
      (fresh images_fs never)
    = (Ok tt, after_failed_upload cat (fresh images_fs never))
  ∧ for_each [bird; cat] (scan_step api Samples.f080 ["for_review"] ["results"])
      (fresh images_fs never)
    = for_each [cat] (scan_step api Samples.f080 ["for_review"] ["results"])
        (after_failed_upload bird (fresh images_fs never)).
Proof.
  destruct (upload_failure_is_isolated api Samples.f080 ["for_review"] ["results"]
              cat (fresh images_fs never)) as (Hsend & Hh & _);
    [intros k; right; reflexivity|].
  destruct (upload_failure_is_isolated api Samples.f080 ["for_review"] ["results"]
              bird (fresh images_fs never)) as (_ & _ & _ & _ & Hscan & _);
    [intros k; right; reflexivity|].
  split; [exact Hsend|]. split; [exact Hh|].
  apply Hscan; reflexivity.
Defined.

(** An empty file system has no [images] directory. *)
Lemma scan_missing_directory_witness :
  scan_existing_and_process ["images"] api Samples.f080 ["for_review"] ["results"]
    (fresh ∅ (always (confidence Samples.f095)))
  = (Ok tt, fresh ∅ (always (confidence Samples.f095))).
Proof. apply scan_missing_directory. reflexivity. Defined.

(** Of the four entries of [images/], the scan visits [Bird.PNG] and then
    [cat.jpg]. *)
Lemma scan_visits_sorted_images_witness :
  scan_existing_and_process ["images"] api Samples.f080 ["for_review"] ["results"]
    (fresh images_fs (always (confidence Samples.f095)))
  = for_each [bird; cat]
      (λ p, handle_image api p Samples.f080 ["for_review"] ["results"])
      (fresh images_fs (always (confidence Samples.f095))).
Proof.
  destruct (scan_visits_sorted_images api Samples.f080 ["for_review"] ["results"]
              ["images"] (fresh images_fs (always (confidence Samples.f095))))
    as (Hscan & _); [reflexivity|].
  exact Hscan.
Defined.

End examples.

(** * Further properties *)

(** ** The extractor *)

Section extractor_more.
Import PyFloat PyFloatFacts.



(** A [detections] list hides the other keys, and a numeric [confidence]
    hides [predictions]. *)
Theorem extract_branch_priority :
  (∀ (m : gmap string json) (l : list json),
      m !! "detections" = Some (JList l) →
      extract_max_confidence (JDict m)
      = extract_max_confidence (JDict {["detections" := JList l]}))
  ∧ (∀ (m : gmap string json) (v : json),
      dict_list m "detections" = None → dict_number m "confidence" = Some v →
      extract_max_confidence (JDict m)
      = extract_max_confidence (JDict {["confidence" := v]})).
Proof.
  split.
  - intros m l Hm. unfold extract_max_confidence, dict_list.
    by rewrite Hm, lookup_singleton_eq.
  - intros m v Hd Hc. unfold extract_max_confidence. rewrite Hd, Hc.
    unfold dict_list, dict_number in *.
    rewrite lookup_singleton_ne by done. rewrite lookup_singleton_eq.
    destruct (m !! "confidence") as [v'|]; [|done].
    destruct (is_number v') eqn:Hv; [|done]. injection Hc as ->. by rewrite Hv.
Qed.

Lemma extract_branch_priority_witness :
  extract_max_confidence
    (JDict (<["detections" := JList []]> {["confidence" := JFloat Samples.f095]}))
  = Ok zero
  ∧ extract_max_confidence
      (JDict (<["confidence" := JFloat Samples.f050]>
                {["predictions" := JList Samples.detections_elems]}))
    = Ok Samples.f050.
Proof.
  destruct extract_branch_priority as [Hdet Hconf]. split.
  - rewrite (Hdet _ []); reflexivity.
  - rewrite (Hconf _ (JFloat Samples.f050)); reflexivity.
Defined.

Lemma py_float_number_raises v e :
  is_number v = true → py_float v = Raise e → e = OverflowError.
Proof.
  destruct v; try done. cbn. unfold of_int.
  destruct (binary_normalize prec emax n 0 false); by intros _ [= <-].
Qed.

Lemma for_keys_raises d keys acc e :
  for_keys d keys acc = Raise e → e = OverflowError.
Proof.
  revert acc. induction keys as [|key keys IH]; intros acc; cbn [for_keys]; [done|].
  destruct (dict_number d key) as [v|] eqn:Hv; [|apply IH].
  assert (is_number v = true) as Hn.
  { unfold dict_number in Hv. destruct (d !! key) as [v'|]; [|done].
    destruct (is_number v') eqn:Hn; [|done]. by injection Hv as <-. }
  destruct (py_float v) as [x|e'] eqn:Hx; cbn.
  - apply IH.
  - intros [= <-]. by apply (py_float_number_raises v).
Qed.

Lemma for_elems_raises l acc e :
  for_elems l acc = Raise e → e = OverflowError.
Proof.
  revert acc. induction l as [|d l IH]; intros acc; cbn [for_elems]; [done|].
  destruct d; try apply IH.
  destruct (for_keys m conf_keys acc) as [mc|e'] eqn:Hk; cbn.
  - apply IH.
  - intros [= <-]. by apply (for_keys_raises m conf_keys acc).
Qed.

Lemma dict_number_is_number d key v : dict_number d key = Some v → is_number v = true.
Proof.
  unfold dict_number. destruct (d !! key) as [v'|]; [|done].
  destruct (is_number v') eqn:Hn; [|done]. by intros [= <-].
Qed.

Lemma candidates_numbers l v : v ∈ candidates l → is_number v = true.
Proof.
  unfold candidates. rewrite list_elem_of_bind. intros (e & Hv & _).
  destruct e; try by apply elem_of_nil in Hv.
  unfold numeric_fields in Hv. apply list_elem_of_omap in Hv as (key & _ & Hk).
  by apply (dict_number_is_number m key).
Qed.

Lemma extract_raises j e : extract_max_confidence j = Raise e → e = OverflowError.
Proof.
  unfold extract_max_confidence. destruct j; try done.
  destruct (dict_list m "detections"); [apply for_elems_raises|].
  destruct (dict_number m "confidence") as [v|] eqn:Hv.
  - intros H. apply (py_float_number_raises v); [|done].
    by apply (dict_number_is_number m "confidence").
  - destruct (dict_list m "predictions"); [apply for_elems_raises|done].
Qed.

(** The only exception [extract_max_confidence] raises is [OverflowError],
    and without an integer among the numeric fields it raises nothing. *)
Theorem extract_raises_only_overflow :
  (∀ (j : json) (e : exn), extract_max_confidence j = Raise e → e = OverflowError)
  ∧ (∀ (m : gmap string json) (l : list json),
      m !! "detections" = Some (JList l) →
      (∀ v, v ∈ candidates l → ∀ n, v ≠ JInt n) →
      ∃ r, extract_max_confidence (JDict m) = Ok r).
Proof.
  split; [apply extract_raises|].
  - intros m l Hm Hints.
    assert (∃ xs, converts (candidates l) xs) as [xs Hxs].
    { pose proof (candidates_numbers l) as Hnum. revert Hints Hnum.
      generalize (candidates l). intros vs.
      induction vs as [|v vs IH]; intros Hints Hnum; [exists []; constructor|].
      destruct IH as [xs Hxs].
      { intros v' Hv'. apply Hints. by apply list_elem_of_further. }
      { intros v' Hv'. apply Hnum. by apply list_elem_of_further. }
      pose proof (Hnum v (list_elem_of_here _ _)) as Hv.
      pose proof (Hints v (list_elem_of_here _ _)) as Hi.
      destruct v; try done.
      - exists (of_bool b :: xs). by constructor.
      - by destruct (Hi n).
      - exists (f :: xs). by constructor. }
    exists (running_max xs). unfold extract_max_confidence, dict_list.
    rewrite Hm. by apply for_elems_ok.
Qed.

Lemma extract_raises_only_overflow_witness :
  ∃ r, extract_max_confidence (JDict Samples.detections_resp) = Ok r.
Proof.
  destruct extract_raises_only_overflow as [_ Hfloat].
  apply (Hfloat Samples.detections_resp Samples.detections_elems eq_refl).
  intros v Hv n ->. vm_compute in Hv.
  repeat (apply elem_of_cons in Hv as [Hv|Hv]; [discriminate Hv|]).
  by apply elem_of_nil in Hv.
Defined.

Lemma for_keys_not_below d keys acc z r :
  lt acc z = false → for_keys d keys acc = Ok r → lt r z = false.
Proof.
  revert acc. induction keys as [|key keys IH]; intros acc Hz; cbn [for_keys].
  - by intros [= <-].
  - destruct (dict_number d key) as [v|]; [|by apply IH].
    destruct (py_float v) as [x|]; cbn; [|done]. apply IH. by apply max_not_lt.
Qed.

Lemma for_elems_not_below l acc z r :
  lt acc z = false → for_elems l acc = Ok r → lt r z = false.
Proof.
  revert acc. induction l as [|e l IH]; intros acc Hz; cbn [for_elems].
  - by intros [= <-].
  - destruct e; try by apply IH.
    destruct (for_keys m conf_keys acc) as [mc|] eqn:Hk; cbn; [|done].
    apply IH. by apply (for_keys_not_below m conf_keys acc).
Qed.

Lemma for_elems_app l1 l2 acc :
  for_elems (l1 ++ l2) acc = for_elems l1 acc ≫= for_elems l2.
Proof.
  revert acc. induction l1 as [|e l1 IH]; intros acc; [done|].
  cbn [app for_elems]. destruct e; try apply IH.
  destruct (for_keys m conf_keys acc) as [mc|]; cbn; [apply IH|done].
Qed.

(** More detections never lower the score: the score of a list extended at
    its end is not below the score of the list. *)
Theorem extract_detections_monotone (l1 l2 : list json) (r1 r2 : float) :
  extract_max_confidence (JDict {["detections" := JList l1]}) = Ok r1 →
  extract_max_confidence (JDict {["detections" := JList (l1 ++ l2)]}) = Ok r2 →
  lt r2 r1 = false.
Proof.
  unfold extract_max_confidence, dict_list. rewrite !lookup_singleton_eq.
  rewrite for_elems_app. intros ->. cbn.
  apply for_elems_not_below, lt_irrefl.
Qed.

Lemma extract_detections_monotone_witness :
  lt one Samples.f050 = false.
Proof.
  apply (extract_detections_monotone
           [JDict {["confidence" := JFloat Samples.f050]}]
           [JDict {["score" := JBool true]}]); reflexivity.
Defined.




End extractor_more.

(** ** Uploads and their retries *)

Section upload_more.
Context (api_url : string) (image_path : Path).

Lemma send_image_body_cases w :
  (∃ j, is_file_in (fs w) image_path = true
        ∧ endpoint w (attempts w) api_url image_path = Some j
        ∧ send_image_body api_url image_path w = (Ok j, count_attempt w))
  ∨ (attempt_fails w api_url image_path (attempts w)
     ∧ ∃ e, send_image_body api_url image_path w = (Raise e, count_attempt w)).
Proof.
  unfold attempt_fails, is_file_in, send_image_body.
  destruct (node_at (fs w) image_path) as [[c|]|]; [|right; eauto..].
  destruct (endpoint w (attempts w) api_url image_path) as [j|];
    [left|right]; eauto.
Qed.

Lemma retry_succeeds m n w resp :
  (n < m)%nat →
  (∀ k, (k < n)%nat → attempt_fails w api_url image_path (attempts w + k)) →
  is_file_in (fs w) image_path = true →
  endpoint w (attempts w + n) api_url image_path = Some resp →
  retry m (send_image_body api_url image_path) w
  = (Ok resp,
     mkWorld (fs w) (denied w) (endpoint w) (attempts w + n + 1) (log w)).
Proof.
  revert m w. induction n as [|n IH]; intros [|m] w Hlt Hfail Hfile Hok;
    try lia; cbn [retry].
  - rewrite Nat.add_0_r in Hok.
    destruct (send_image_body_cases w) as [(j & _ & Hj & Hb) | ([Hf|Hf] & _)];
      [|congruence..].
    rewrite (bind_Ok _ _ _ _ _ (try_except_eq _ _ _ _ Hb)).
    rewrite Hj in Hok. injection Hok as ->. cbn. do 2 f_equal.
    unfold count_attempt. f_equal. lia.
  - destruct (send_image_body_fails api_url image_path w) as [e He].
    { specialize (Hfail 0%nat). rewrite Nat.add_0_r in Hfail. apply Hfail. lia. }
    rewrite (bind_Ok _ _ _ _ _ (try_except_eq _ _ _ _ He)).
    rewrite (IH m (count_attempt w)); cbn.
    + do 2 f_equal. lia.
    + lia.
    + intros k Hk. specialize (Hfail (S k)). rewrite Nat.add_succ_r in Hfail.
      unfold attempt_fails in *. cbn. apply Hfail. lia.
    + done.
    + by rewrite Nat.add_succ_r in Hok.
Qed.

Lemma retry_inv m w r w' :
  retry m (send_image_body api_url image_path) w = (r, w') →
  (∃ resp n, r = Ok resp ∧ (n < m)%nat
     ∧ attempts w' = (attempts w + n + 1)%nat
     ∧ is_file_in (fs w) image_path = true
     ∧ endpoint w (attempts w + n) api_url image_path = Some resp)
  ∨ (r = Raise RetryError ∧ attempts w' = (attempts w + m)%nat
     ∧ ∀ k, (k < m)%nat → attempt_fails w api_url image_path (attempts w + k)).
Proof.
  revert w. induction m as [|m IH]; intros w; cbn [retry].
  - intros [= <- <-]. right. repeat apply conj; [done|lia|lia].
  - destruct (send_image_body_cases w) as [(j & Hf & Hj & Hb) | (Hf & e & Hb)];
      rewrite (bind_Ok _ _ _ _ _ (try_except_eq _ _ _ _ Hb)).
    + intros [= <- <-]. left. exists j, 0%nat.
      rewrite Nat.add_0_r. repeat apply conj; try done; cbn; lia.
    + intros H. apply IH in H as
        [(resp & n & -> & Hn & Ha & Hfile & Hok) | (-> & Ha & Hall)]; cbn in *.
      * left. exists resp, (S n).
        replace (attempts w + S n)%nat with (S (attempts w) + n)%nat by lia.
        repeat apply conj; try done; lia.
      * right. repeat apply conj; [done|lia|].
        intros [|k] Hk; [by rewrite Nat.add_0_r|].
        replace (attempts w + S k)%nat with (S (attempts w) + k)%nat by lia.
        apply (Hall k). lia.
Qed.

(** When the first [n] attempts fail and the next one is answered, with
    [n < 3], [send_image] returns that answer after exactly [n + 1] attempts
    and touches neither the files nor the log. *)
Theorem send_image_succeeds_after (n : nat) (w : World) (resp : json) :
  (n < 3)%nat →
  (∀ k, (k < n)%nat → attempt_fails w api_url image_path (attempts w + k)) →
  is_file_in (fs w) image_path = true →
  endpoint w (attempts w + n) api_url image_path = Some resp →
  send_image api_url image_path w
  = (Ok resp,
     mkWorld (fs w) (denied w) (endpoint w) (attempts w + n + 1) (log w)).
Proof. apply retry_succeeds. Qed.

(** Whatever [send_image] does, it runs its body between one and three
    times and leaves the files, the refusals and the log alone; it returns
    the first answer it gets, and the only exception that leaves it is
    [RetryError], after exactly three failed attempts. *)
Theorem send_image_outcomes (w w' : World) (r : result json) :
  send_image api_url image_path w = (r, w') →
  fs w' = fs w ∧ denied w' = denied w ∧ endpoint w' = endpoint w ∧ log w' = log w
  ∧ ((∃ resp n, r = Ok resp ∧ (n < 3)%nat
        ∧ attempts w' = (attempts w + n + 1)%nat
        ∧ is_file_in (fs w) image_path = true
        ∧ endpoint w (attempts w + n) api_url image_path = Some resp)
     ∨ (r = Raise RetryError ∧ attempts w' = (attempts w + 3)%nat
        ∧ ∀ k, (k < 3)%nat → attempt_fails w api_url image_path (attempts w + k))).
Proof.
  intros H. destruct (retry_world api_url image_path _ _ _ _ H) as (? & ? & ? & ?).
  repeat (split; [done|]). by apply retry_inv in H.
Qed.

End upload_more.

(** ** Frames: what the pipeline leaves alone *)

Section frames.
Context (R : relation World) `{!PreOrder R}.

Lemma respects_ret {A} (a : A) : respects R (mret a).
Proof. intros w r w' [= <- <-]. reflexivity. Qed.

Lemma respects_bind {A B} (m : M A) (k : A → M B) :
  respects R m → (∀ a, respects R (k a)) → respects R (m ≫= k).
Proof.
  intros Hm Hk w r w' H.
  apply bind_inv in H as [(a & w1 & H1 & H2) | (e & H1 & _)].
  - trans w1; [by eapply Hm | by eapply Hk].
  - by eapply Hm.
Qed.

Lemma respects_try {A} (m : M A) : respects R m → respects R (try_except m).
Proof.
  intros Hm w r w'. unfold try_except.
  destruct (m w) as [r1 w1] eqn:H1. intros [= <- <-]. by eapply Hm.
Qed.

Lemma respects_for_each {A} (l : list A) body :
  (∀ x, x ∈ l → respects R (body x)) → respects R (for_each l body).
Proof.
  induction l as [|x l IH]; intros Hb; cbn [for_each].
  - apply respects_ret.
  - apply respects_bind; [apply Hb, list_elem_of_here|intros _].
    apply IH. intros y Hy. by apply Hb, list_elem_of_further.
Qed.

Lemma respects_lift {A} (r : result A) : respects R (lift r).
Proof. intros w r' w' [= <- <-]. reflexivity. Qed.

Lemma respects_read {A} (f : World → A) : respects R (λ w, (Ok (f w), w)).
Proof. intros w r' w' [= <- <-]. reflexivity. Qed.

End frames.

Section raises.
Context (P : exn → Prop).

Lemma raises_only_bind {A B} (m : M A) (k : A → M B) :
  raises_only P m → (∀ a, raises_only P (k a)) → raises_only P (m ≫= k).
Proof.
  intros Hm Hk w e w' H.
  apply bind_inv in H as [(a & w1 & H1 & H2) | (e' & H1 & [= <-])].
  - by eapply Hk.
  - by eapply Hm.
Qed.

Lemma raises_only_never {A} (m : M A) :
  (∀ w, ∃ a w', m w = (Ok a, w')) → raises_only P m.
Proof. intros Hm w e w' H. destruct (Hm w) as (a & w1 & H1). congruence. Qed.

Lemma raises_only_try {A} (m : M A) : raises_only P (try_except m).
Proof.
  apply raises_only_never. intros w. unfold try_except.
  destruct (m w) as [r w']. eauto.
Qed.

Lemma raises_only_logging rec : raises_only P (logging rec).
Proof. apply raises_only_never. intros w. unfold logging. eauto. Qed.

End raises.

Global Instance same_files_except_po ps : PreOrder (same_files_except ps).
Proof.
  split.
  - by intros w q Hq.
  - intros w1 w2 w3 H12 H23 q Hq. by rewrite (H23 q Hq), (H12 q Hq).
Qed.

Global Instance images_untouched_po : PreOrder images_untouched.
Proof.
  split.
  - by intros w q Hq.
  - intros w1 w2 w3 H12 H23 q Hq. by rewrite (H23 q Hq), (H12 q Hq).
Qed.

Global Instance same_requests_po : PreOrder same_requests.
Proof.
  split.
  - by intros w.
  - intros w1 w2 w3 (? & ? & ?) (? & ? & ?). repeat split; congruence.
Qed.

Global Instance kinds_kept_po : PreOrder kinds_kept.
Proof. split; apply _. Qed.

Section handle_image_frames.
Context (api_url : string) (threshold : float) (review_dir results_dir : Path).

Lemma handle_image_unfold image_path :
  handle_image api_url image_path threshold review_dir results_dir
  = (logging (LogProcessing image_path);;
     r ← try_except (send_image api_url image_path);
     after_upload image_path threshold review_dir results_dir r).
Proof. reflexivity. Qed.

Lemma respects_same_fs {A} (R : relation World) `{!PreOrder R} (m : M A) :
  (∀ w w', fs w' = fs w → attempts w' = attempts w → endpoint w' = endpoint w →
           denied w' = denied w → R w w') →
  (∀ w r w', m w = (r, w') →
     fs w' = fs w ∧ attempts w' = attempts w ∧ endpoint w' = endpoint w
     ∧ denied w' = denied w) →
  respects R m.
Proof. intros HR Hm w r w' H. destruct (Hm _ _ _ H) as (? & ? & ? & ?). by apply HR. Qed.

End handle_image_frames.

Section handle_image_never.
Context (api_url : string) (threshold : float) (review_dir results_dir : Path).

Lemma frame_logging (R : relation World) rec :
  (∀ w, R w (add_log rec w)) → respects R (logging rec).
Proof. intros HR w r w' [= <- <-]. apply HR. Qed.

Lemma same_files_send image_path ps :
  respects (same_files_except ps) (send_image api_url image_path).
Proof.
  intros w r w' H q Hq.
  apply retry_world in H as (-> & _). done.
Qed.

Lemma same_files_mkdir d ps : respects (same_files_except ps) (mkdir_parents d).
Proof.
  intros w r w' H q Hq. apply mkdir_parents_inv in H as (-> & _). done.
Qed.

Lemma same_files_write p j ps :
  p ∈ ps → respects (same_files_except ps) (write_json p j).
Proof.
  intros Hp w r w' H q Hq.
  apply write_json_inv in H as [[[_ ->] | (e & _ & _ & ->)] _]; [|done].
  apply lookup_insert_ne. by intros ->.
Qed.

Lemma same_files_after_upload image_path r :
  respects
    (same_files_except
       [json_path results_dir image_path; json_path review_dir image_path])
    (after_upload image_path threshold review_dir results_dir r).
Proof.
  destruct r as [resp|e]; cbn [after_upload].
  2:{ by apply frame_logging. }
  apply respects_bind; [apply _|apply same_files_mkdir|intros _].
  apply respects_bind; [apply _|apply same_files_write; set_solver|intros _].
  apply respects_bind; [apply _|apply (respects_lift _)|intros max_conf].
  apply respects_bind; [apply _|by apply frame_logging|intros _].
  destruct (PyFloat.lt max_conf threshold); [|apply (respects_ret _)].
  apply respects_bind; [apply _|apply same_files_mkdir|intros _].
  apply respects_bind; [apply _|apply same_files_write; set_solver|intros _].
  by apply frame_logging.
Qed.

Lemma same_files_handle_image image_path :
  respects
    (same_files_except
       [json_path results_dir image_path; json_path review_dir image_path])
    (handle_image api_url image_path threshold review_dir results_dir).
Proof.
  rewrite handle_image_unfold.
  apply respects_bind; [apply _|by apply frame_logging|intros _].
  apply respects_bind;
    [apply _|apply respects_try, same_files_send|intros r].
  apply same_files_after_upload.
Qed.

Lemma same_requests_mkdir d : respects same_requests (mkdir_parents d).
Proof.
  apply respects_for_each; [apply _|]. intros q _ w r w'. unfold mkdir_level.
  destruct (node_at (fs w) q) as [[c|]|]; [| |destruct (denied w q)];
    by intros [= <- <-].
Qed.

Lemma same_requests_write p j : respects same_requests (write_json p j).
Proof.
  intros w r w'. unfold write_json.
  destruct (node_at (fs w) p) as [[c|]|];
    [destruct (denied w p)| |
     destruct (node_at (fs w) (Pathlib.parent p)) as [[c|]|];
       [|destruct (denied w p)|]];
    by intros [= <- <-].
Qed.

Lemma same_requests_after_upload image_path r :
  respects same_requests
    (after_upload image_path threshold review_dir results_dir r).
Proof.
  destruct r as [resp|e]; cbn [after_upload].
  2:{ by apply frame_logging. }
  apply respects_bind; [apply _|apply same_requests_mkdir|intros _].
  apply respects_bind; [apply _|apply same_requests_write|intros _].
  apply respects_bind; [apply _|apply (respects_lift _)|intros max_conf].
  apply respects_bind; [apply _|by apply frame_logging|intros _].
  destruct (PyFloat.lt max_conf threshold); [|apply (respects_ret _)].
  apply respects_bind; [apply _|apply same_requests_mkdir|intros _].
  apply respects_bind; [apply _|apply same_requests_write|intros _].
  by apply frame_logging.
Qed.

Lemma raises_io_mkdir d :
  raises_only (λ e, is_io_error e = true ∨ e = OverflowError) (mkdir_parents d).
Proof. intros w e w' H. apply mkdir_parents_inv in H as (_ & He & _). left. by apply He. Qed.

Lemma raises_io_write p j :
  raises_only (λ e, is_io_error e = true ∨ e = OverflowError) (write_json p j).
Proof.
  intros w e w' H.
  apply write_json_inv in H as [[[[=] _] | (e' & [= <-] & He & _)] _]. by left.
Qed.

Lemma raises_after_upload image_path r :
  raises_only (λ e, is_io_error e = true ∨ e = OverflowError)
    (after_upload image_path threshold review_dir results_dir r).
Proof.
  destruct r as [resp|e]; cbn [after_upload]; [|apply raises_only_logging].
  apply raises_only_bind; [apply raises_io_mkdir|intros _].
  apply raises_only_bind; [apply raises_io_write|intros _].
  apply raises_only_bind.
  { intros w e w' [= H _]. right. by apply (extract_raises resp). }
  intros max_conf.
  apply raises_only_bind; [apply raises_only_logging|intros _].
  destruct (PyFloat.lt max_conf threshold).
  - apply raises_only_bind; [apply raises_io_mkdir|intros _].
    apply raises_only_bind; [apply raises_io_write|intros _].
    apply raises_only_logging.
  - by intros w e w'.
Qed.

(** The exceptions that leave [handle_image] are those of the file system
    and [OverflowError] from the scoring; a failed upload never does. *)
Theorem handle_image_raises (image_path : Path) (w w' : World) (e : exn) :
  handle_image api_url image_path threshold review_dir results_dir w
  = (Raise e, w') →
  is_io_error e = true ∨ e = OverflowError.
Proof.
  revert w e w'. rewrite handle_image_unfold.
  apply raises_only_bind; [apply raises_only_logging|intros _].
  apply raises_only_bind; [apply raises_only_try|intros r].
  apply raises_after_upload.
Qed.

Lemma handle_image_requests image_path w w' (r : result unit) :
  handle_image api_url image_path threshold review_dir results_dir w = (r, w') →
  (attempts w + 1 ≤ attempts w')%nat ∧ (attempts w' ≤ attempts w + 3)%nat
  ∧ endpoint w' = endpoint w ∧ denied w' = denied w.
Proof.
  rewrite handle_image_unfold. intros H.
  apply bind_inv in H as [([] & w0 & [= <-] & H) | (e & [=] & _)].
  apply bind_inv in H as [(r1 & w1 & Hs & H) | (e & Hs & _)]; cycle 1.
  { unfold try_except in Hs.
    by destruct (send_image api_url image_path (add_log (LogProcessing image_path) w)). }
  unfold try_except in Hs.
  destruct (send_image api_url image_path (add_log (LogProcessing image_path) w))
    as [r1' w1'] eqn:Hsend. injection Hs as <- <-.
  apply same_requests_after_upload in H as (Ha & He & Hd).
  destruct (retry_world _ _ _ _ _ _ Hsend) as (_ & Hd1 & He1 & _).
  apply retry_inv in Hsend as
    [(resp & n & _ & Hn & Hat & _) | (_ & Hat & _)];
    unfold stop_after_attempt in *; cbn [attempts endpoint denied add_log] in *;
    (split; [lia|]); (split; [lia|]); split; congruence.
Qed.

(** Each call of [handle_image] makes one to three upload attempts, and
    changes neither the endpoint nor what the system refuses. *)
Theorem handle_image_attempts (image_path : Path) (w w' : World) (r : result unit) :
  handle_image api_url image_path threshold review_dir results_dir w = (r, w') →
  (attempts w + 1 ≤ attempts w')%nat ∧ (attempts w' ≤ attempts w + 3)%nat
  ∧ endpoint w' = endpoint w ∧ denied w' = denied w.
Proof. apply handle_image_requests. Qed.

End handle_image_never.

(** ** Output paths *)

Section outputs.
Import Pathlib PathlibFacts.

Lemma name_joinpath_json d s : name (joinpath d (s +:+ ".json")) = s +:+ ".json".
Proof.
  unfold joinpath. rewrite name_unfold.
  - by rewrite last_snoc.
  - intros H. destruct d as [|a [|b d]]; try done.
    injection H as H. apply (f_equal String.length) in H.
    rewrite length_app in H. cbn in H. lia.
Qed.

Lemma json_path_not_image d p : is_image_file (json_path d p) = false.
Proof.
  unfold is_image_file, json_path, suffix. rewrite name_joinpath_json.
  change (stem p +:+ ".json") with (stem p +:+ String "." "json").
  rewrite (rfind_dot_app (stem p) "json") by done.
  destruct (splits_at _ _); [|done].
  by rewrite drop_app.
Qed.

(** A name that splits as [base.ext] has stem [base]. *)
Lemma stem_of_split p base ext :
  name p = base +:+ String "." ext → base ≠ "" → ext ≠ "" →
  rfind_dot ext = None →
  stem p = base.
Proof.
  intros Hnm Hbase Hext Hdot. unfold stem. rewrite Hnm.
  rewrite (rfind_dot_app base ext Hdot).
  assert (splits_at (base +:+ String "." ext) (String.length base) = true) as ->.
  { apply splits_at_iff. rewrite length_app. cbn [String.length].
    destruct base; [done|]. destruct ext; [done|]. cbn [String.length]. lia. }
  apply take_app.
Qed.

(** The agent never takes what it writes for an image: the path of a
    results or review record does not pass [is_image_file]. *)
Theorem output_is_never_an_image (dir image_path : Path) :
  is_image_file (json_path dir image_path) = false.
Proof. apply json_path_not_image. Qed.

(** Images whose names differ only in their extension share one output
    path, so the record of the later one replaces the record of the earlier. *)
Theorem same_base_same_output (dir p q : Path) (base e1 e2 : string) :
  name p = base +:+ "." +:+ e1 → name q = base +:+ "." +:+ e2 → base ≠ "" →
  lower e1 ∈ image_extensions → lower e2 ∈ image_extensions →
  json_path dir p = dir ++ [base +:+ ".json"]
  ∧ json_path dir q = json_path dir p.
Proof.
  intros Hp Hq Hb H1 H2.
  assert (∀ r e, name r = base +:+ "." +:+ e → lower e ∈ image_extensions →
                 stem r = base) as Hstem.
  { intros r e Hr He. destruct (image_extension_plain _ He) as [Hne Hdot].
    rewrite rfind_dot_lower in Hdot.
    apply (stem_of_split r base e); try done. by intros ->. }
  unfold json_path, joinpath.
  by rewrite (Hstem p e1 Hp H1), (Hstem q e2 Hq H2).
Qed.

Lemma same_base_same_output_witness :
  json_path ["results"] ["images"; "cat.jpg"] = ["results"; "cat.json"]
  ∧ json_path ["results"] ["images"; "cat.PNG"]
    = json_path ["results"] ["images"; "cat.jpg"].
Proof.
  apply (same_base_same_output ["results"] ["images"; "cat.jpg"]
           ["images"; "cat.PNG"] "cat" "jpg" "PNG"); try reflexivity.
  - discriminate.
  - vm_compute. set_solver.
  - vm_compute. set_solver.
Defined.

End outputs.

(** ** What the pipeline never touches *)

Section never_touches.
Context (api_url : string) (threshold : float) (review_dir results_dir : Path).

Lemma images_untouched_handle_image image_path :
  respects images_untouched
    (handle_image api_url image_path threshold review_dir results_dir).
Proof.
  intros w r w' H q Hq.
  apply (same_files_handle_image api_url threshold review_dir results_dir
           image_path w r w' H).
  rewrite !elem_of_cons, elem_of_nil.
  intros [-> | [-> | []]]; by rewrite json_path_not_image in Hq.
Qed.

(** However [handle_image] ends, no entry has disappeared or changed kind,
    the only regular files that may differ are the two records of the
    image, and no file that passes [is_image_file] has changed. *)
Theorem handle_image_touches_only_records (image_path : Path) (w w' : World)
    (r : result unit) :
  handle_image api_url image_path threshold review_dir results_dir w = (r, w') →
  kinds_kept w w'
  ∧ (∀ q, q ≠ json_path results_dir image_path →
          q ≠ json_path review_dir image_path →
          files_of (fs w') !! q = files_of (fs w) !! q)
  ∧ (∀ q, is_image_file q = true → files_of (fs w') !! q = files_of (fs w) !! q).
Proof.
  intros H. split; [|split].
  - by eapply keeps_kinds_handle_image.
  - intros q H1 H2.
    apply (same_files_handle_image api_url threshold review_dir results_dir
             image_path w r w' H).
    rewrite !elem_of_cons, elem_of_nil. tauto.
  - by eapply images_untouched_handle_image.
Qed.

Lemma respects_scan (R : relation World) `{!PreOrder R} watch_dir :
  (∀ p, respects R (handle_image api_url p threshold review_dir results_dir)) →
  respects R
    (scan_existing_and_process watch_dir api_url threshold review_dir results_dir).
Proof.
  intros Hh. unfold scan_existing_and_process.
  apply respects_bind; [apply _|apply (respects_read _)|intros ex].
  apply respects_bind; [apply _| |intros entries].
  - destruct ex; [|apply (respects_ret _)].
    intros w r w'. unfold iterdir.
    destruct (node_at (fs w) watch_dir) as [[c|]|]; by intros [= <- <-].
  - apply respects_for_each; [apply _|]. intros p _. unfold scan_step.
    apply respects_bind; [apply _|apply (respects_read _)|intros isf].
    destruct (isf && is_image_file p); [apply Hh|apply (respects_ret _)].
Qed.

(** However the startup scan ends, it has deleted nothing, changed the kind
    of no entry and changed no file that passes [is_image_file]. *)
Theorem scan_touches_no_image (watch_dir : Path) (w w' : World) (r : result unit) :
  scan_existing_and_process watch_dir api_url threshold review_dir results_dir w
  = (r, w') →
  kinds_kept w w'
  ∧ (∀ q, is_image_file q = true → files_of (fs w') !! q = files_of (fs w) !! q).
Proof.
  intros H. split.
  - apply (respects_scan kinds_kept watch_dir) in H; [done|].
    intros p. apply keeps_kinds_handle_image.
  - apply (respects_scan images_untouched watch_dir) in H; [done|].
    intros p. apply images_untouched_handle_image.
Qed.

(** The scan as a loop over its targets. *)
Lemma scan_as_loop watch_dir w :
  node_at (fs w) watch_dir = Some NDir →
  scan_existing_and_process watch_dir api_url threshold review_dir results_dir w
  = for_each (scan_targets w watch_dir)
      (λ p, handle_image api_url p threshold review_dir results_dir) w.
Proof.
  intros Hdir. unfold scan_existing_and_process, path_exists.
  rewrite (bind_Ok _ _ w true w) by (by rewrite Hdir).
  rewrite (bind_Ok _ _ w (children (fs w) watch_dir) w)
    by (unfold iterdir; by rewrite Hdir).
  apply scan_loop_filter; [done|].
  intros p Hp.
  apply SortFacts.elem_of_sorted, elem_of_children in Hp as [Hc Hs].
  by rewrite (is_child_node_at _ _ _ Hc).
Qed.

(** A watched directory with no image file in it (empty, or holding only
    other files and directories) leaves the world as it was: no request, no
    directory created, nothing logged. *)
Theorem scan_without_images (watch_dir : Path) (w : World) :
  node_at (fs w) watch_dir = Some NDir →
  (∀ p, is_child watch_dir p → is_file_in (fs w) p = true →
        is_image_file p = false) →
  scan_existing_and_process watch_dir api_url threshold review_dir results_dir w
  = (Ok tt, w).
Proof.
  intros Hdir Hnone. rewrite scan_as_loop by done.
  assert (scan_targets w watch_dir = []) as ->; [|done].
  apply elem_of_nil_inv. intros p Hp.
  apply elem_of_scan_targets in Hp as (Hc & Hf & Hi).
  by rewrite (Hnone p Hc Hf) in Hi.
Qed.

(** A watch path that is a regular file passes the [exists()] guard and then
    fails in [iterdir()]: the scan raises [NotADirectoryError] at once. *)
Theorem scan_of_regular_file (watch_dir : Path) (w : World) (c : content) :
  node_at (fs w) watch_dir = Some (NFile c) →
  scan_existing_and_process watch_dir api_url threshold review_dir results_dir w
  = (Raise (NotADirectoryError watch_dir), w).
Proof.
  intros Hfile. unfold scan_existing_and_process, path_exists.
  rewrite (bind_Ok _ _ w true w) by (by rewrite Hfile).
  apply bind_Raise. unfold iterdir. by rewrite Hfile.
Qed.

Lemma for_each_attempts (l : list Path) w r w' :
  for_each l (λ p, handle_image api_url p threshold review_dir results_dir) w
  = (r, w') →
  (attempts w' ≤ attempts w + 3 * length l)%nat.
Proof.
  revert w. induction l as [|p l IH]; intros w; cbn [for_each].
  - intros [= <- <-]. lia.
  - intros H. apply bind_inv in H as [([] & w1 & H1 & H2) | (e & H1 & _)].
    + apply handle_image_requests in H1 as (_ & H1 & _).
      apply IH in H2. cbn [length]. lia.
    + apply handle_image_requests in H1 as (_ & H1 & _). cbn [length]. lia.
Qed.

(** The scan makes at most three upload attempts for each entry it keeps,
    and none for the others. *)
Theorem scan_attempts_bound (watch_dir : Path) (w w' : World) (r : result unit) :
  node_at (fs w) watch_dir = Some NDir →
  scan_existing_and_process watch_dir api_url threshold review_dir results_dir w
  = (r, w') →
  (attempts w' ≤ attempts w + 3 * length (scan_targets w watch_dir))%nat.
Proof.
  intros Hdir. rewrite scan_as_loop by done. apply for_each_attempts.
Qed.

(** [on_created] ignores the events of directories and of paths that are not
    images.  It does not check that the path is a file: for an image path
    that cannot be opened it makes the three attempts and logs the failure,
    where the startup scan passes such an entry over. *)
Theorem on_created_filters (self : NewImageHandler) (ev : event) (w : World) :
  (is_directory ev = true ∨ is_image_file (src_path ev) = false →
   on_created self ev w = (Ok tt, w))
  ∧ (is_directory ev = false → is_image_file (src_path ev) = true →
     is_file_in (fs w) (src_path ev) = false →
     on_created self ev w = (Ok tt, after_failed_upload (src_path ev) w)
     ∧ scan_step (h_api_url self) (h_threshold self) (h_review_dir self)
         (h_results_dir self) (src_path ev) w = (Ok tt, w)).
Proof.
  split.
  - intros [Hd|Hi]; unfold on_created.
    + by rewrite Hd.
    + destruct (is_directory ev); [done|]. cbn. by rewrite Hi.
  - intros Hd Hi Hf. split.
    + unfold on_created. rewrite Hd. cbn. rewrite Hi.
      apply handle_image_all_fail. intros k. by left.
    + by rewrite scan_step_eq, Hf.
Qed.

(** When the scoring raises, the results record is already written and stays:
    [handle_image] raises with the results file in place and no review file. *)
Theorem results_survive_scoring_error (image_path : Path) (w w1 w3 : World)
    (resp : json) (e : exn) :
  send_image api_url image_path w = (Ok resp, w1) →
  extract_max_confidence resp = Raise e →
  (mkdir_parents results_dir;;
   write_json (json_path results_dir image_path) (result_record image_path resp))
    (add_log (LogProcessing image_path) w1) = (Ok tt, w3) →
  handle_image api_url image_path threshold review_dir results_dir w
  = (Raise e, w3)
  ∧ files_of (fs w3)
    = <[json_path results_dir image_path :=
          Document (result_record image_path resp)]> (files_of (fs w)).
Proof.
  intros Hsend Hx Hres.
  destruct (send_image_logged api_url image_path (LogProcessing image_path)
              w _ _ Hsend) as [Hsend' Hfs].
  apply bind_inv in Hres as [([] & wm & Hm & Hw) | (e' & _ & [=])].
  split.
  - unfold handle_image, logging.
    rewrite (bind_Ok _ _ w tt (add_log (LogProcessing image_path) w)) by done.
    rewrite (bind_Ok _ _ _ _ _ (try_except_eq _ _ _ _ Hsend')).
    rewrite (bind_Ok _ _ _ _ _ Hm), (bind_Ok _ _ _ _ _ Hw), Hx.
    by apply bind_Raise.
  - apply mkdir_parents_inv in Hm as (Fm & _).
    apply write_json_inv in Hw as [[[_ ->] | (e' & [=] & _)] _].
    rewrite Fm. cbn. by rewrite Hfs.
Qed.

End never_touches.

(** ** Running the pipeline again *)

Section rerun.
Context (api_url : string) (threshold : float) (review_dir results_dir : Path).

Lemma after_upload_files image_path resp w r w' :
  after_upload image_path threshold review_dir results_dir (Ok resp) w = (r, w') →
  (∀ e, r = Raise e → is_io_error e = false) →
  r = (extract_max_confidence resp ≫= λ _, Ok tt)
  ∧ files_of (fs w')
    = records_written image_path resp threshold review_dir results_dir
        (files_of (fs w)).
Proof.
  cbn [after_upload]. unfold records_written. intros H Hio.
  assert (∀ e, is_io_error e = true → r ≠ Raise e) as Hno.
  { intros e He ->. by rewrite (Hio e) in He. }
  apply bind_inv in H as [([] & w2 & H2 & H) | (e & H2 & ->)]; cycle 1.
  { apply mkdir_parents_inv in H2 as (_ & E & _). by destruct (Hno e (E e eq_refl)). }
  apply mkdir_parents_inv in H2 as (F2 & _).
  apply bind_inv in H as [([] & w3 & H3 & H) | (e & H3 & ->)]; cycle 1.
  { apply write_json_inv in H3 as [[[[=] _] | (e' & [= <-] & E & _)] _].
    by destruct (Hno e E). }
  apply write_json_inv in H3 as [[[_ F3] | (e' & [=] & _)] _].
  rewrite F2 in F3.
  destruct (extract_max_confidence resp) as [max_conf|ex] eqn:Hx.
  2:{ apply bind_inv in H as [(a & w4 & [=] & _) | (e & [= <- <-] & ->)]. done. }
  apply bind_inv in H as [(a & w4 & [= <- <-] & H) | (e & [=] & _)].
  apply bind_inv in H as [([] & w4 & [= <-] & H) | (e & [=] & _)].
  destruct (PyFloat.lt max_conf threshold).
  2:{ injection H as <- <-. done. }
  apply bind_inv in H as [([] & w5 & H5 & H) | (e & H5 & ->)]; cycle 1.
  { apply mkdir_parents_inv in H5 as (_ & E & _). by destruct (Hno e (E e eq_refl)). }
  apply mkdir_parents_inv in H5 as (F5 & _).
  apply bind_inv in H as [([] & w6 & H6 & H) | (e & H6 & ->)]; cycle 1.
  { apply write_json_inv in H6 as [[[[=] _] | (e' & [= <-] & E & _)] _].
    by destruct (Hno e E). }
  apply write_json_inv in H6 as [[[_ F6] | (e' & [=] & _)] _].
  injection H as <- <-. split; [done|].
  change (files_of (fs w6) = <[json_path review_dir image_path :=
    Document (review_record image_path resp max_conf)]>
    (<[json_path results_dir image_path :=
    Document (result_record image_path resp)]> (files_of (fs w)))).
  rewrite F6, F5. change (fs (add_log _ w3)) with (fs w3). by rewrite F3.
Qed.

Lemma handle_image_files image_path resp w w1 r w' :
  send_image api_url image_path w = (Ok resp, w1) →
  handle_image api_url image_path threshold review_dir results_dir w = (r, w') →
  (∀ e, r = Raise e → is_io_error e = false) →
  r = (extract_max_confidence resp ≫= λ _, Ok tt)
  ∧ files_of (fs w')
    = records_written image_path resp threshold review_dir results_dir
        (files_of (fs w)).
Proof.
  intros Hsend H Hio. rewrite handle_image_unfold in H.
  destruct (send_image_logged api_url image_path (LogProcessing image_path)
              w _ _ Hsend) as [Hsend' Hfs].
  unfold logging at 1 in H.
  rewrite (bind_Ok _ _ w tt (add_log (LogProcessing image_path) w)) in H by done.
  rewrite (bind_Ok _ _ _ _ _ (try_except_eq _ _ _ _ Hsend')) in H.
  apply after_upload_files in H as [-> ->]; [|done].
  split; [done|]. cbn. by rewrite Hfs.
Qed.

Lemma records_written_twice image_path resp files :
  records_written image_path resp threshold review_dir results_dir
    (records_written image_path resp threshold review_dir results_dir files)
  = records_written image_path resp threshold review_dir results_dir files.
Proof.
  unfold records_written.
  destruct (extract_max_confidence resp) as [max_conf|];
    [destruct (PyFloat.lt max_conf threshold)|..];
    apply map_eq; intros q; rewrite ?lookup_insert; repeat case_decide; done.
Qed.

(** Processing an image again, with the same answer from the endpoint and
    again without I/O error, ends the same way and leaves the regular files
    exactly as the first run left them. *)
Theorem handle_image_twice (image_path : Path) (resp : json)
    (w wa w1 wb w2 : World) (r1 r2 : result unit) :
  send_image api_url image_path w = (Ok resp, wa) →
  handle_image api_url image_path threshold review_dir results_dir w = (r1, w1) →
  (∀ e, r1 = Raise e → is_io_error e = false) →
  send_image api_url image_path w1 = (Ok resp, wb) →
  handle_image api_url image_path threshold review_dir results_dir w1 = (r2, w2) →
  (∀ e, r2 = Raise e → is_io_error e = false) →
  r2 = r1 ∧ files_of (fs w2) = files_of (fs w1).
Proof.
  intros Hs1 H1 Hio1 Hs2 H2 Hio2.
  destruct (handle_image_files _ _ _ _ _ _ Hs1 H1 Hio1) as [-> F1].
  destruct (handle_image_files _ _ _ _ _ _ Hs2 H2 Hio2) as [-> F2].
  split; [done|]. rewrite F2, F1. apply records_written_twice.
Qed.

End rerun.

Section more_examples.
Import Worlds MoreWorlds.

(** Two failures, then an answer: three attempts and the answer. *)
Lemma send_image_succeeds_after_witness :
  send_image api cat (fresh images_fs (flaky 2 (confidence Samples.f095)))
  = (Ok (confidence Samples.f095),
     mkWorld images_fs (λ _, false) (flaky 2 (confidence Samples.f095)) 3 []).
Proof.
  apply (send_image_succeeds_after api cat 2
           (fresh images_fs (flaky 2 (confidence Samples.f095)))).
  - lia.
  - intros k Hk. right. cbn. unfold flaky.
    by destruct k as [|[|k]]; [..|lia].
  - vm_compute; reflexivity.
  - vm_compute; reflexivity.
Defined.

(** An endpoint that never answers: three attempts, the files as they were. *)
Lemma send_image_outcomes_witness :
  attempts (snd (send_image api cat (fresh images_fs never)))
    = (attempts (fresh images_fs never) + 3)%nat
  ∧ fs (snd (send_image api cat (fresh images_fs never)))
    = fs (fresh images_fs never).
Proof.
  destruct (send_image_outcomes api cat (fresh images_fs never)
              (snd (send_image api cat (fresh images_fs never)))
              (fst (send_image api cat (fresh images_fs never))))
    as (Hfs & _ & _ & _ & [(resp & n & Hr & _) | (_ & Ha & _)]).
  - apply surjective_pairing.
  - vm_compute in Hr. discriminate Hr.
  - split; [exact Ha|exact Hfs].
Defined.

(** With a regular file named [results], what leaves [handle_image] is an
    exception of the file system. *)
Lemma handle_image_raises_witness :
  is_io_error (FileExistsError ["results"]) = true
  ∨ FileExistsError ["results"] = OverflowError.
Proof.
  apply (handle_image_raises api Samples.f080 ["for_review"] ["results"] cat
           (fresh blocked_fs (always (confidence Samples.f095)))
           (add_log (LogProcessing cat)
              (count_attempt (fresh blocked_fs (always (confidence Samples.f095)))))).
  vm_compute; reflexivity.
Defined.

(** One image and an endpoint that answers at once: one attempt. *)
Lemma handle_image_attempts_witness :
  (attempts (fresh images_fs (always (confidence Samples.f095))) + 1
   ≤ attempts (snd (handle_image api cat Samples.f080 ["for_review"] ["results"]
                      (fresh images_fs (always (confidence Samples.f095))))))%nat.
Proof.
  destruct (handle_image_attempts api Samples.f080 ["for_review"] ["results"] cat
              (fresh images_fs (always (confidence Samples.f095)))
              (snd (handle_image api cat Samples.f080 ["for_review"] ["results"]
                      (fresh images_fs (always (confidence Samples.f095)))))
              (fst (handle_image api cat Samples.f080 ["for_review"] ["results"]
                      (fresh images_fs (always (confidence Samples.f095))))))
    as (Hlow & _).
  - apply surjective_pairing.
  - exact Hlow.
Defined.

(** The image is still what it was once its records are written. *)
Lemma handle_image_touches_only_records_witness :
  files_of
    (fs (snd (handle_image api cat Samples.f080 ["for_review"] ["results"]
                (fresh images_fs (always (confidence Samples.f050)))))) !! cat
  = files_of (fs (fresh images_fs (always (confidence Samples.f050)))) !! cat.
Proof.
  destruct (handle_image_touches_only_records api Samples.f080 ["for_review"]
              ["results"] cat
              (fresh images_fs (always (confidence Samples.f050)))
              (snd (handle_image api cat Samples.f080 ["for_review"] ["results"]
                      (fresh images_fs (always (confidence Samples.f050)))))
              (fst (handle_image api cat Samples.f080 ["for_review"] ["results"]
                      (fresh images_fs (always (confidence Samples.f050))))))
    as (_ & _ & Himg).
  - apply surjective_pairing.
  - apply (Himg cat). vm_compute; reflexivity.
Defined.

(** After the scan, [Bird.PNG] is still what it was. *)
Lemma scan_touches_no_image_witness :
  files_of
    (fs (snd (scan_existing_and_process ["images"] api Samples.f080
                ["for_review"] ["results"]
                (fresh images_fs (always (confidence Samples.f050)))))) !! bird
  = files_of (fs (fresh images_fs (always (confidence Samples.f050)))) !! bird.
Proof.
  destruct (scan_touches_no_image api Samples.f080 ["for_review"] ["results"]
              ["images"] (fresh images_fs (always (confidence Samples.f050)))
              (snd (scan_existing_and_process ["images"] api Samples.f080
                      ["for_review"] ["results"]
                      (fresh images_fs (always (confidence Samples.f050)))))
              (fst (scan_existing_and_process ["images"] api Samples.f080
                      ["for_review"] ["results"]
                      (fresh images_fs (always (confidence Samples.f050))))))
    as (_ & Himg).
  - apply surjective_pairing.
  - apply (Himg bird). vm_compute; reflexivity.
Defined.

(** A directory with a text file and a sub-directory: nothing happens. *)
Lemma scan_without_images_witness :
  scan_existing_and_process ["images"] api Samples.f080 ["for_review"] ["results"]
    (fresh notes_fs (always (confidence Samples.f050)))
  = (Ok tt, fresh notes_fs (always (confidence Samples.f050))).
Proof.
  apply scan_without_images; [vm_compute; reflexivity|].
  intros p Hc Hf.
  assert (p ∈ children notes_fs ["images"]) as Hp.
  { apply elem_of_children. split; [done|].
    unfold is_file_in in Hf. rewrite (is_child_node_at _ _ _ Hc) in Hf.
    cbn [fs fresh] in Hf. destruct (notes_fs !! p) as [n|]; [by exists n|done]. }
  vm_compute in Hp.
  repeat (apply elem_of_cons in Hp as [->|Hp];
          [first [by vm_compute in Hf | vm_compute; reflexivity]|]).
  by apply elem_of_nil in Hp.
Defined.

(** Watching [images/cat.jpg], a regular file. *)
Lemma scan_of_regular_file_witness :
  scan_existing_and_process cat api Samples.f080 ["for_review"] ["results"]
    (fresh images_fs never)
  = (Raise (NotADirectoryError cat), fresh images_fs never).
Proof.
  apply (scan_of_regular_file _ _ _ _ _ _ Bytes). vm_compute; reflexivity.
Defined.

(** Two images and an endpoint that never answers: at most six attempts. *)
Lemma scan_attempts_bound_witness :
  (attempts (snd (scan_existing_and_process ["images"] api Samples.f080
                    ["for_review"] ["results"] (fresh images_fs never)))
   ≤ attempts (fresh images_fs never)
     + 3 * length (scan_targets (fresh images_fs never) ["images"]))%nat.
Proof.
  apply (scan_attempts_bound api Samples.f080 ["for_review"] ["results"]
           ["images"] (fresh images_fs never) _
           (fst (scan_existing_and_process ["images"] api Samples.f080
                   ["for_review"] ["results"] (fresh images_fs never)))).
  - vm_compute; reflexivity.
  - apply surjective_pairing.
Defined.

(** The event of a directory, of a text file, and of an image that is gone
    when the handler runs. *)
Lemma on_created_filters_witness :
  on_created handler (Build_event true cat) (fresh images_fs never)
    = (Ok tt, fresh images_fs never)
  ∧ on_created handler (Build_event false ["images"; "notes.txt"])
      (fresh images_fs never)
    = (Ok tt, fresh images_fs never)
  ∧ on_created handler (Build_event false ["images"; "gone.jpg"])
      (fresh images_fs (always (confidence Samples.f095)))
    = (Ok tt, after_failed_upload ["images"; "gone.jpg"]
                (fresh images_fs (always (confidence Samples.f095)))).
Proof.
  split; [|split].
  - apply (on_created_filters handler (Build_event true cat)). by left.
  - apply (on_created_filters handler (Build_event false ["images"; "notes.txt"])).
    right. vm_compute; reflexivity.
  - apply (on_created_filters handler (Build_event false ["images"; "gone.jpg"]));
      vm_compute; reflexivity.
Defined.

(** [{"confidence": 10 ** 400}]: the results record is written, then the
    scoring raises. *)
Lemma results_survive_scoring_error_witness :
  handle_image api cat Samples.f080 ["for_review"] ["results"]
    (fresh images_fs (always huge))
  = (Raise OverflowError,
     snd (handle_image api cat Samples.f080 ["for_review"] ["results"]
            (fresh images_fs (always huge))))
  ∧ files_of
      (fs (snd (handle_image api cat Samples.f080 ["for_review"] ["results"]
                  (fresh images_fs (always huge)))))
    = <[json_path ["results"] cat := Document (result_record cat huge)]>
        (files_of (fs (fresh images_fs (always huge)))).
Proof.
  apply (results_survive_scoring_error api Samples.f080 ["for_review"]
           ["results"] cat (fresh images_fs (always huge))
           (count_attempt (fresh images_fs (always huge)))
           (snd (handle_image api cat Samples.f080 ["for_review"] ["results"]
                   (fresh images_fs (always huge))))
           huge OverflowError); vm_compute; reflexivity.
Defined.

(** The same image twice, the same answer twice. *)
Lemma handle_image_twice_witness :
  Ok tt = Ok tt
  ∧ files_of
      (fs (snd (handle_image api cat Samples.f080 ["for_review"] ["results"]
                  (snd (handle_image api cat Samples.f080 ["for_review"] ["results"]
                          (fresh images_fs (always (confidence Samples.f050))))))))
    = files_of
        (fs (snd (handle_image api cat Samples.f080 ["for_review"] ["results"]
                    (fresh images_fs (always (confidence Samples.f050)))))).
Proof.
  apply (handle_image_twice api Samples.f080 ["for_review"] ["results"] cat
           (confidence Samples.f050)
           (fresh images_fs (always (confidence Samples.f050)))
           (count_attempt (fresh images_fs (always (confidence Samples.f050))))
           (snd (handle_image api cat Samples.f080 ["for_review"] ["results"]
                   (fresh images_fs (always (confidence Samples.f050)))))
           (count_attempt
              (snd (handle_image api cat Samples.f080 ["for_review"] ["results"]
                      (fresh images_fs (always (confidence Samples.f050))))))
           (snd (handle_image api cat Samples.f080 ["for_review"] ["results"]
                   (snd (handle_image api cat Samples.f080 ["for_review"] ["results"]
                           (fresh images_fs (always (confidence Samples.f050)))))))
           (Ok tt) (Ok tt));
    first [by intros e [=] | vm_compute; reflexivity].
Defined.

End more_examples.
